(** * Expense tracker: transaction/category domain logic

    A shallow embedding of the domain logic of the expense tracker
    (React components over a Supabase/PostgreSQL store) and the proofs of
    its filtering, aggregation, grouping and consistency properties.

    Sources embedded here:
    - [supabase/migrations/20251027113359_create_expense_tracker_schema.sql]
      (tables [categories] and [transactions], the foreign key, the
      [updated_at] trigger, the row-level-security policies);
    - [src/components/Dashboard.tsx] ([initializeDefaultCategories],
      [loadTransactions] in its Supabase and its [fetch] variant,
      [applyFilters], [calculateTotals]);
    - [src/components/TransactionList.tsx] (the grouping by date);
    - [src/components/CategoryManager.tsx] ([handleDelete]);
    - the transaction editor ([AddTransactionModal], [loadCategories]).

    Modelling conventions.
    - JavaScript strings are [string]; [s.startsWith(p)] is
      [String.prefix p s]; the empty string is falsy.
    - A monetary [amount] is the column type [numeric(10,2)]; a row
      holds it exactly, as a number of cents in [Z].  The client holds it
      as a JavaScript number, the binary64 value nearest to it:
      [Number.calculateTotals] adds these numbers as the browser does,
      with the rounding of every addition, and [calculateTotals] is the
      same computation on the exact amounts.
    - A Supabase call resolves to [{ data, error }]; [data] is [null]
      when the call failed.  This is the type [Response]. *)

From Stdlib Require Import ZArith String Ascii List Lia Sorted.
From Stdlib Require PrimFloat.
From stdpp Require Import base decidable option list strings.

Open Scope string_scope.
Open Scope Z_scope.

(** ** Data model *)

(** [type text NOT NULL CHECK (type IN ('expense', 'income'))] and the
    TypeScript union ['expense' | 'income']. *)
Inductive Kind : Type := expense | income.

#[global] Instance Kind_eq_dec : EqDecision Kind.
Proof. solve_decision. Defined.

(** The result of a Supabase call: [{ data }] with [data = null] on
    failure. *)
Inductive Response (A : Type) : Type :=
  | Data (data : A)
  | Failed.
Arguments Data {A} data.
Arguments Failed {A}.

(** A store call either answers with the value the store holds or
    fails. *)
Inductive answers {A : Type} (v : A) : Response A -> Prop :=
  | answers_data : answers v (Data v)
  | answers_failed : answers v Failed.

(** Rows of the table [categories]. *)
Module Category.
Record t : Type := mk {
  id : string;
  user_id : string;
  name : string;
  type : Kind;
  color : string;
  icon : string;
  created_at : Z
}.
End Category.

(** Rows of the table [transactions].  [category_id] is the nullable
    foreign key; [amount] is in cents; [created_at] and [updated_at] are
    timestamps (the client never supplies them, so the column default
    [now()] always fills them). *)
Module TxRow.
Record t : Type := mk {
  id : string;
  user_id : string;
  category_id : option string;
  amount : Z;
  type : Kind;
  description : string;
  date : string;
  created_at : Z;
  updated_at : Z
}.
End TxRow.

(** The embedded resource [category:categories(name, color)]. *)
Record CategoryRef : Type := {
  ref_name : string;
  ref_color : string
}.

(** A transaction as the dashboard holds it: the selected columns ([*])
    and the joined category, [null] when there is none. *)
Record Transaction : Type := {
  row :> TxRow.t;
  category : option CategoryRef
}.

#[global] Instance Category_eq_dec : EqDecision Category.t.
Proof. solve_decision. Defined.
#[global] Instance TxRow_eq_dec : EqDecision TxRow.t.
Proof. solve_decision. Defined.
#[global] Instance CategoryRef_eq_dec : EqDecision CategoryRef.
Proof. solve_decision. Defined.
#[global] Instance Transaction_eq_dec : EqDecision Transaction.
Proof. solve_decision. Defined.

(** ** Filter and aggregation engine ([Dashboard.tsx]) *)

(** [filterType : 'all' | 'expense' | 'income']. *)
Inductive FilterType : Type :=
  | all
  | only (k : Kind).

(** [if (selectedMonth)]: a string is truthy when it is not empty. *)
Definition truthy (s : string) : bool := negb (String.eqb s "").

(** [applyFilters]: the type filter, then the month filter, each applied
    only when it is set. *)
Definition applyFilters (transactions : list Transaction)
    (filterType : FilterType) (selectedMonth : string) : list Transaction :=
  let filtered := transactions in
  let filtered :=
    match filterType with
    | all => filtered
    | only k => filter (fun t : Transaction => TxRow.type t = k) filtered
    end in
  let filtered :=
    if truthy selectedMonth
    then filter (fun t : Transaction =>
                   String.prefix selectedMonth (TxRow.date t) = true) filtered
    else filtered in
  filtered.

(** The two tests of [applyFilters], as predicates. *)
Definition type_ok (F : FilterType) (t : Transaction) : Prop :=
  match F with
  | all => True
  | only k => TxRow.type t = k
  end.

Definition month_ok (P : string) (t : Transaction) : Prop :=
  String.prefix P (TxRow.date t) = true.

#[global] Instance type_ok_dec F t : Decision (type_ok F t).
Proof. destruct F; simpl; apply _. Defined.

#[global] Instance month_ok_dec P t : Decision (month_ok P t).
Proof. unfold month_ok. apply _. Defined.

Record Totals : Type := {
  total_income : Z;
  total_expenses : Z;
  balance : Z
}.

(** [calculateTotals] on the exact amounts: two [filter]/[reduce] passes
    over the filtered view, and their difference.  The same passes on
    the numbers that the browser adds are [Number.calculateTotals]. *)
Definition calculateTotals (filteredTransactions : list Transaction) : Totals :=
  let income_sum :=
    fold_left (fun sum (t : Transaction) => sum + TxRow.amount t)
      (filter (fun t : Transaction => TxRow.type t = income) filteredTransactions) 0 in
  let expenses_sum :=
    fold_left (fun sum (t : Transaction) => sum + TxRow.amount t)
      (filter (fun t : Transaction => TxRow.type t = expense) filteredTransactions) 0 in
  {| total_income := income_sum;
     total_expenses := expenses_sum;
     balance := income_sum - expenses_sum |}.

(** The balance card shows [Math.abs(balance)] and picks its colour from
    the sign. *)
Inductive Cue : Type := emerald | red.

Definition balanceDisplay (b : Z) : Cue * Z :=
  (if 0 <=? b then emerald else red, Z.abs b).

(** The sum of the amounts of the transactions of one kind, as the
    specification words it: every transaction of that kind contributes
    its amount, every other contributes nothing. *)
Fixpoint sum_of_kind (k : Kind) (l : list Transaction) : Z :=
  match l with
  | [] => 0
  | t :: l' => (if decide (TxRow.type t = k) then TxRow.amount t else 0) + sum_of_kind k l'
  end.

(** The sum of the amounts of a whole view. *)
Fixpoint sum_amounts (l : list Transaction) : Z :=
  match l with
  | [] => 0
  | t :: l' => TxRow.amount t + sum_amounts l'
  end.

(** ** Calendar dates and [Date.prototype.getTime]

    The column [date date NOT NULL] reaches the client as a string
    [YYYY-MM-DD].  [new Date(s).getTime()] on such a date-only string is
    the UTC time value of ECMAScript: [MakeDate(MakeDay(y, m, d), 0)].
    Strings of another shape are mapped to [None] (an invalid date, whose
    time value is [NaN]); the date parser of a browser accepts more
    shapes than this one, and every statement below that depends on
    [getTime] is restricted to calendar dates. *)

Definition digit (c : ascii) : option Z :=
  let n := Z.of_nat (nat_of_ascii c) in
  if (48 <=? n) && (n <=? 57) then Some (n - 48) else None.

Definition number2 (a b : ascii) : option Z :=
  match digit a, digit b with
  | Some x, Some y => Some (10 * x + y)
  | _, _ => None
  end.

Definition number4 (a b c d : ascii) : option Z :=
  match number2 a b, number2 c d with
  | Some x, Some y => Some (100 * x + y)
  | _, _ => None
  end.

(** ECMAScript [InLeapYear], [DaysInYear], [DayFromYear]. *)
Definition InLeapYear (y : Z) : bool :=
  (y mod 4 =? 0) && (negb (y mod 100 =? 0) || (y mod 400 =? 0)).

Definition DaysInYear (y : Z) : Z := if InLeapYear y then 366 else 365.

Definition DayFromYear (y : Z) : Z :=
  365 * (y - 1970) + (y - 1969) / 4 - (y - 1901) / 100 + (y - 1601) / 400.

Definition DaysInMonth (y m : Z) : Z :=
  if m =? 2 then (if InLeapYear y then 29 else 28)
  else if (m =? 4) || (m =? 6) || (m =? 9) || (m =? 11) then 30
  else 31.

(** Days of the year [y] that precede the first day of month [m]. *)
Definition DaysBeforeMonth (y m : Z) : Z :=
  let leap := if InLeapYear y then 1 else 0 in
  if m =? 1 then 0
  else if m =? 2 then 31
  else if m =? 3 then 59 + leap
  else if m =? 4 then 90 + leap
  else if m =? 5 then 120 + leap
  else if m =? 6 then 151 + leap
  else if m =? 7 then 181 + leap
  else if m =? 8 then 212 + leap
  else if m =? 9 then 243 + leap
  else if m =? 10 then 273 + leap
  else if m =? 11 then 304 + leap
  else 334 + leap.

(** [MakeDay] for a month [1..12] and a day of that month. *)
Definition MakeDay (y m d : Z) : Z :=
  DayFromYear y + DaysBeforeMonth y m + (d - 1).

Definition msPerDay : Z := 86400000.

(** The fields of a string [YYYY-MM-DD]. *)
Definition parseDate (s : string) : option (Z * Z * Z) :=
  match s with
  | String y1 (String y2 (String y3 (String y4 (String sep1
      (String m1 (String m2 (String sep2 (String d1 (String d2 EmptyString))))))))) =>
      if Ascii.eqb sep1 "-"%char && Ascii.eqb sep2 "-"%char then
        match number4 y1 y2 y3 y4, number2 m1 m2, number2 d1 d2 with
        | Some y, Some m, Some d => Some (y, m, d)
        | _, _, _ => None
        end
      else None
  | _ => None
  end.

(** The day number of a calendar date, [None] when the string is not
    one. *)
Definition dayNumber (s : string) : option Z :=
  match parseDate s with
  | Some (y, m, d) =>
      if (1 <=? m) && (m <=? 12) && (1 <=? d) && (d <=? DaysInMonth y m)
      then Some (MakeDay y m d)
      else None
  | None => None
  end.

(** [new Date(s).getTime()]; [None] is [NaN]. *)
Definition getTime (s : string) : option Z :=
  match dayNumber s with
  | Some day => Some (day * msPerDay)
  | None => None
  end.

(** The strings that are calendar dates. *)
Definition calendar_date (s : string) : Prop := is_Some (dayNumber s).

#[global] Instance calendar_date_dec (s : string) : Decision (calendar_date s).
Proof. unfold calendar_date. apply _. Defined.

(** ** [Array.prototype.sort]

    The comparator returns a number or [NaN] ([None]); [SortCompare]
    reads [NaN] as [+0].  The sort is stable (ECMAScript 2019), so for a
    consistent comparator its result is the one of a stable insertion
    sort. *)
Section Sort.
Context {A : Type}.
Variable comparefn : A -> A -> option Z.

Definition SortCompare (x y : A) : Z :=
  match comparefn x y with
  | Some v => v
  | None => 0
  end.

Fixpoint insert_sorted (x : A) (l : list A) : list A :=
  match l with
  | [] => [x]
  | y :: l' =>
      if SortCompare x y <=? 0 then x :: y :: l' else y :: insert_sorted x l'
  end.

Fixpoint sort (l : list A) : list A :=
  match l with
  | [] => []
  | x :: l' => insert_sorted x (sort l')
  end.
End Sort.

(** ** Transaction presentation grouper ([TransactionList.tsx]) *)

(** A JavaScript object used as a dictionary.  Its string keys that are
    not array indices are enumerated in creation order, and assigning to
    an existing key keeps the key's place; a date key contains ["-"] and
    is never an array index. *)
Definition Obj (V : Type) : Type := list (string * V).

Fixpoint obj_get {V : Type} (o : Obj V) (k : string) : option V :=
  match o with
  | [] => None
  | (k', v) :: o' => if String.eqb k' k then Some v else obj_get o' k
  end.

Fixpoint obj_set {V : Type} (o : Obj V) (k : string) (v : V) : Obj V :=
  match o with
  | [] => [(k, v)]
  | (k', v') :: o' =>
      if String.eqb k' k then (k', v) :: o' else (k', v') :: obj_set o' k v
  end.

Definition obj_keys {V : Type} (o : Obj V) : list string := map fst o.

(** The reducer: [if (!acc[date]) acc[date] = []; acc[date].push(transaction)]. *)
Definition group_step (acc : Obj (list Transaction)) (transaction : Transaction)
    : Obj (list Transaction) :=
  let date := TxRow.date transaction in
  let acc :=
    match obj_get acc date with
    | None => obj_set acc date []
    | Some _ => acc
    end in
  obj_set acc date (default [] (obj_get acc date) ++ [transaction])%list.

Definition groupedTransactions (transactions : list Transaction)
    : Obj (list Transaction) :=
  fold_left group_step transactions [].

(** [(a, b) => new Date(b).getTime() - new Date(a).getTime()]. *)
Definition compareDates (a b : string) : option Z :=
  match getTime b, getTime a with
  | Some tb, Some ta => Some (tb - ta)
  | _, _ => None
  end.

Definition sortedDates (transactions : list Transaction) : list string :=
  sort compareDates (obj_keys (groupedTransactions transactions)).

(** The groups as they are rendered: [sortedDates.map] over
    [groupedTransactions[date]].  This is the operation the
    specification calls [groupByDate]. *)
Definition groupByDate (transactions : list Transaction)
    : list (string * list Transaction) :=
  map (fun date => (date, default [] (obj_get (groupedTransactions transactions) date)))
      (sortedDates transactions).

(** The dates of a list of transactions, and the transactions of one
    date in arrival order. *)
Definition dates (l : list Transaction) : list string :=
  map (fun t : Transaction => TxRow.date t) l.

Definition on_date (d : string) (l : list Transaction) : list Transaction :=
  filter (fun t : Transaction => TxRow.date t = d) l.

(** [a] is a later calendar date than [b]. *)
Definition later_date (a b : string) : Prop :=
  match getTime a, getTime b with
  | Some ta, Some tb => tb < ta
  | _, _ => False
  end.

(** What the component returns: the empty-state message, or the list of
    date groups. *)
Inductive ListView : Type :=
  | EmptyState
  | DateGroups (groups : list (string * list Transaction)).

Definition TransactionList (transactions : list Transaction) : ListView :=
  if (Z.of_nat (length transactions) =? 0) then EmptyState
  else DateGroups (groupByDate transactions).

(** ** The store ([create_expense_tracker_schema.sql]) *)

Record Db : Type := {
  tbl_categories : list Category.t;
  tbl_transactions : list TxRow.t
}.

(** The referential actions of a foreign key. *)
Inductive ReferentialAction : Type := NoAction | Cascade | SetNull.

(** [category_id uuid REFERENCES categories(id) ON DELETE SET NULL]. *)
Definition category_id_on_delete : ReferentialAction := SetNull.

(** The trigger function [update_updated_at_column]:
    [NEW.updated_at = now(); RETURN NEW]. *)
Definition update_updated_at_column (now : Z) (NEW : TxRow.t) : TxRow.t :=
  TxRow.mk (TxRow.id NEW) (TxRow.user_id NEW) (TxRow.category_id NEW) (TxRow.amount NEW)
         (TxRow.type NEW) (TxRow.description NEW) (TxRow.date NEW) (TxRow.created_at NEW) now.

Definition set_category_id (v : option string) (r : TxRow.t) : TxRow.t :=
  TxRow.mk (TxRow.id r) (TxRow.user_id r) v (TxRow.amount r)
         (TxRow.type r) (TxRow.description r) (TxRow.date r) (TxRow.created_at r)
         (TxRow.updated_at r).

(** An [UPDATE] of one row of [transactions]: the trigger
    [update_transactions_updated_at] runs [BEFORE UPDATE ... FOR EACH ROW]. *)
Definition update_row (now : Z) (change : TxRow.t -> TxRow.t) (r : TxRow.t) : TxRow.t :=
  update_updated_at_column now (change r).

Definition references (cid : string) (r : TxRow.t) : Prop :=
  TxRow.category_id r = Some cid.

#[global] Instance references_dec cid r : Decision (references cid r).
Proof. unfold references. apply _. Defined.

(** What the deletion of the category [cid] does to the referencing
    table, by referential action; [None] is a rejected statement.
    [SET NULL] is an update of the referencing rows, so the row triggers
    of [transactions] fire on them. *)
Definition on_delete (action : ReferentialAction) (now : Z) (cid : string)
    (rows : list TxRow.t) : option (list TxRow.t) :=
  match action with
  | NoAction =>
      if decide (Exists (references cid) rows) then None else Some rows
  | Cascade =>
      Some (filter (fun r => ~ references cid r) rows)
  | SetNull =>
      Some (map (fun r => if decide (references cid r)
                          then update_row now (set_category_id None) r
                          else r) rows)
  end.

(** [DELETE FROM categories WHERE id = cid], under the policy
    "Users can delete own categories" ([auth.uid() = user_id]). *)
Definition delete_category (uid : string) (now : Z) (cid : string) (db : Db)
    : option Db :=
  let target := fun c => Category.id c = cid /\ Category.user_id c = uid in
  if decide (Exists target (tbl_categories db)) then
    match on_delete category_id_on_delete now cid (tbl_transactions db) with
    | Some rows =>
        Some {| tbl_categories := filter (fun c => ~ target c) (tbl_categories db);
                tbl_transactions := rows |}
    | None => None
    end
  else Some db.

(** [handleDelete] of [CategoryManager.tsx]: the store call is issued
    once the user has confirmed. *)
Definition handleDelete (confirmed : bool) (uid : string) (now : Z) (id : string)
    (db : Db) : option Db :=
  if confirmed then delete_category uid now id db else Some db.

(** The embedded resource [category:categories(name, color)] of a row:
    the category its foreign key points to, among those the policy
    "Users can view own categories" shows. *)
Definition embed_category (db : Db) (uid : string) (r : TxRow.t) : option CategoryRef :=
  match TxRow.category_id r with
  | None => None
  | Some cid =>
      match List.find (fun c => bool_decide (Category.id c = cid /\ Category.user_id c = uid))
                      (tbl_categories db) with
      | Some c => Some {| ref_name := Category.name c; ref_color := Category.color c |}
      | None => None
      end
  end.

(** [ORDER BY date DESC, created_at DESC] as a comparator. *)
Definition order_date_created (a b : TxRow.t) : option Z :=
  match dayNumber (TxRow.date a), dayNumber (TxRow.date b) with
  | Some da, Some db =>
      Some (if da =? db then TxRow.created_at b - TxRow.created_at a else db - da)
  | _, _ => None
  end.

(** The query of [loadTransactions]:
    [from('transactions').select('*, category:categories(name, color)')
       .order('date', desc).order('created_at', desc)],
    under the policy "Users can view own transactions". *)
Definition select_transactions (db : Db) (uid : string) : list Transaction :=
  map (fun r => {| row := r; category := embed_category db uid r |})
      (sort order_date_created
         (filter (fun r => TxRow.user_id r = uid) (tbl_transactions db))).

(** [from('categories').select('id').eq('user_id', uid).limit(n)]. *)
Definition select_category_ids (db : Db) (uid : string) (limit : nat) : list string :=
  take limit (map Category.id
                (filter (fun c => Category.user_id c = uid) (tbl_categories db))).

(** [from('categories').select('*').eq('type', k).order('name')].  The
    order of [text] values is the collation of the database, which is a
    parameter here. *)
Definition select_categories_of_type (collate : string -> string -> Z)
    (db : Db) (uid : string) (k : Kind) : list Category.t :=
  sort (fun a b => Some (collate (Category.name a) (Category.name b)))
       (filter (fun c => Category.type c = k)
          (filter (fun c => Category.user_id c = uid) (tbl_categories db))).

(** ** Dashboard state ([Dashboard.tsx]) *)

Record Dashboard : Type := {
  transactions : list Transaction;
  filterType : FilterType;
  selectedMonth : string;
  loading : bool
}.

Definition setTransactions (data : list Transaction) (st : Dashboard) : Dashboard :=
  {| transactions := data; filterType := filterType st;
     selectedMonth := selectedMonth st; loading := loading st |}.

Definition setLoading (b : bool) (st : Dashboard) : Dashboard :=
  {| transactions := transactions st; filterType := filterType st;
     selectedMonth := selectedMonth st; loading := b |}.

(** [loadTransactions], Supabase variant: [if (data) setTransactions(data)]
    (an array is truthy, also when empty). *)
Definition loadTransactions (reply : Response (list Transaction)) (st : Dashboard)
    : Dashboard :=
  let st := setLoading true st in
  let st :=
    match reply with
    | Data data => setTransactions data st
    | Failed => st
    end in
  setLoading false st.

(** The outcomes of [fetch] followed by [response.json()]: [fetch]
    rejects, or a response arrives with its [ok] flag and a body that
    parses ([Some]) or not. *)
Inductive FetchOutcome : Type :=
  | NetworkError
  | HttpResponse (ok : bool) (json : option (list Transaction)).

(** The [try] block of the [fetch] variant; [None] is a thrown error. *)
Definition fetchTransactions (outcome : FetchOutcome) : option (list Transaction) :=
  match outcome with
  | NetworkError => None
  | HttpResponse ok json => if negb ok then None else json
  end.

(** [loadTransactions], [fetch] variant: the [catch] only logs. *)
Definition loadTransactions_fetch (outcome : FetchOutcome) (st : Dashboard)
    : Dashboard :=
  let st := setLoading true st in
  let st :=
    match fetchTransactions outcome with
    | Some data => setTransactions data st
    | None => st
    end in
  setLoading false st.

(** The effect on [[transactions, filterType, selectedMonth]]. *)
Definition filteredTransactions (st : Dashboard) : list Transaction :=
  applyFilters (transactions st) (filterType st) (selectedMonth st).

(** The list panel: a spinner while loading, the transaction list
    otherwise. *)
Inductive Panel : Type :=
  | Spinner
  | Listing (v : ListView).

Definition panel (st : Dashboard) : Panel :=
  if loading st then Spinner else Listing (TransactionList (filteredTransactions st)).

(** ** Seeding of the default categories ([Dashboard.tsx]) *)

Record NewCategory : Type := {
  new_name : string;
  new_type : Kind;
  new_color : string;
  new_icon : string;
  new_user_id : string
}.

Definition defaultCategories : list (string * Kind * string * string) :=
  [ ("Food & Dining", expense, "#ef4444", "utensils");
    ("Transportation", expense, "#f97316", "car");
    ("Shopping", expense, "#ec4899", "shopping-bag");
    ("Entertainment", expense, "#8b5cf6", "film");
    ("Bills & Utilities", expense, "#06b6d4", "receipt");
    ("Healthcare", expense, "#10b981", "heart");
    ("Salary", income, "#22c55e", "banknote");
    ("Freelance", income, "#3b82f6", "briefcase");
    ("Investments", income, "#14b8a6", "trending-up");
    ("Other Income", income, "#84cc16", "plus") ].

(** [initializeDefaultCategories]: the list of the [insert] calls it
    issues (each with its rows), given the signed-in user and the reply
    to its query for one existing category.
    [if (!existingCategories || existingCategories.length === 0)]. *)
Definition initializeDefaultCategories (user : option string)
    (existingCategories : Response (list string)) : list (list NewCategory) :=
  match user with
  | None => []
  | Some uid =>
      let none_yet :=
        match existingCategories with
        | Failed => true
        | Data ids => Z.of_nat (length ids) =? 0
        end in
      if none_yet then
        [ map (fun cat : string * Kind * string * string =>
                 let '(n, k, c, i) := cat in
                 {| new_name := n; new_type := k; new_color := c; new_icon := i;
                    new_user_id := uid |})
              defaultCategories ]
      else []
  end.

(** ** The transaction editor ([AddTransactionModal]) *)

Record Modal : Type := {
  isOpen : bool;
  editTransaction : option TxRow.t;
  type : Kind;
  categoryId : string;
  categories : list Category.t
}.

Definition setType (k : Kind) (m : Modal) : Modal :=
  {| isOpen := isOpen m; editTransaction := editTransaction m; type := k;
     categoryId := categoryId m; categories := categories m |}.

Definition setCategoryId (id : string) (m : Modal) : Modal :=
  {| isOpen := isOpen m; editTransaction := editTransaction m; type := type m;
     categoryId := id; categories := categories m |}.

Definition setCategories (data : list Category.t) (m : Modal) : Modal :=
  {| isOpen := isOpen m; editTransaction := editTransaction m; type := type m;
     categoryId := categoryId m; categories := data |}.

(** [loadCategories], given the reply to its query for the categories of
    the current [type]:
    [if (!editTransaction && data.length > 0 && !categoryId) setCategoryId(data[0].id)]. *)
Definition loadCategories (reply : Response (list Category.t)) (m : Modal) : Modal :=
  match reply with
  | Data data =>
      let m' := setCategories data m in
      match data with
      | first :: _ =>
          if negb (bool_decide (is_Some (editTransaction m)))
             && (0 <? Z.of_nat (length data))
             && negb (truthy (categoryId m))
          then setCategoryId (Category.id first) m'
          else m'
      | [] => m'
      end
  | Failed => m
  end.

(** A click on the kind button followed by the effect on [[isOpen, type]],
    which runs when [type] has changed and calls [loadCategories] when the
    editor is open. *)
Definition switchKind (k : Kind) (reply : Response (list Category.t)) (m : Modal)
    : Modal :=
  let changed := negb (bool_decide (type m = k)) in
  let m := setType k m in
  if isOpen m && changed then loadCategories reply m else m.


(** ** Order of the listing and sample data *)

(** [a] is listed before [b] under [ORDER BY date DESC, created_at DESC]:
    a later date, or the same date and created no earlier. *)
Definition listed_before (a b : TxRow.t) : Prop :=
  match dayNumber (TxRow.date a), dayNumber (TxRow.date b) with
  | Some da, Some db =>
      db < da \/ (da = db /\ TxRow.created_at b <= TxRow.created_at a)
  | _, _ => False
  end.

(** The columns of a transaction other than the foreign key and the
    [updated_at] bookkeeping column. *)
Definition same_columns (r r' : TxRow.t) : Prop :=
  TxRow.id r' = TxRow.id r /\ TxRow.user_id r' = TxRow.user_id r /\
  TxRow.amount r' = TxRow.amount r /\ TxRow.type r' = TxRow.type r /\
  TxRow.description r' = TxRow.description r /\ TxRow.date r' = TxRow.date r /\
  TxRow.created_at r' = TxRow.created_at r.

(** The rows of the starter set for an owner. *)
Definition starter (uid : string) : list NewCategory :=
  map (fun cat : string * Kind * string * string =>
         let '(n, k, c, i) := cat in
         {| new_name := n; new_type := k; new_color := c; new_icon := i;
            new_user_id := uid |})
      defaultCategories.

(** The transactions of scenario A of the specification, for the owner
    ["u"]: an expense of 50.00 on 2024-05-01 in the category ["c1"], an
    income of 1000.00 on 2024-05-02, an expense of 30.00 on 2024-06-01. *)
Definition sample_food : Category.t :=
  Category.mk "c1" "u" "Food & Dining" expense "#ef4444" "utensils" 1.

Definition sample_salary : Category.t :=
  Category.mk "c2" "u" "Salary" income "#22c55e" "banknote" 1.

Definition sample_x : TxRow.t :=
  TxRow.mk "x" "u" (Some "c1") 5000 expense "lunch" "2024-05-01" 10 10.

Definition sample_y : TxRow.t :=
  TxRow.mk "y" "u" (Some "c2") 100000 income "pay" "2024-05-02" 11 11.

Definition sample_z : TxRow.t :=
  TxRow.mk "z" "u" None 3000 expense "bus" "2024-06-01" 12 12.

Definition sample_db : Db :=
  {| tbl_categories := [sample_food; sample_salary];
     tbl_transactions := [sample_x; sample_y; sample_z] |}.

Definition sample_dashboard : Dashboard :=
  {| transactions := select_transactions sample_db "u";
     filterType := all; selectedMonth := "2024-05"; loading := false |}.

(** The editor, open on a new expense with the category ["c1"] selected. *)
Definition sample_modal : Modal :=
  {| isOpen := true; editTransaction := None; type := expense;
     categoryId := "c1"; categories := [sample_food] |}.

(** Byte-wise comparison of names, a possible collation. *)
Definition collate_bytes (a b : string) : Z :=
  match String.compare a b with
  | Lt => -1
  | Eq => 0
  | Gt => 1
  end.

(** ** Amounts as JavaScript numbers ([Dashboard.tsx])

    The dashboard holds an amount as a [number]: the binary64 value
    nearest to the decimal value of the column.  For an amount of [c]
    cents this is the correctly rounded quotient of [c] by 100, both of
    which are exact in binary64 for the amounts of [numeric(10,2)]. *)
Module Number.
Import PrimFloat.

Fixpoint of_positive (p : positive) : float :=
  match p with
  | xH => 1%float
  | xO p' => (2 * of_positive p')%float
  | xI p' => (2 * of_positive p' + 1)%float
  end.

Definition of_Z (z : Z) : float :=
  match z with
  | Z0 => 0%float
  | Zpos p => of_positive p
  | Zneg p => (- of_positive p)%float
  end.

Definition of_cents (c : Z) : float := (of_Z c / 100)%float.

Definition zero : float := 0%float.

(** [t.amount]. *)
Definition amount (t : Transaction) : float := of_cents (TxRow.amount t).

Record Totals : Type := {
  total_income : float;
  total_expenses : float;
  balance : float
}.

(** [calculateTotals] on numbers: [reduce((sum, t) => sum + t.amount, 0)]
    over each [filter], and [income - expenses]. *)
Definition calculateTotals (filteredTransactions : list Transaction) : Totals :=
  let income_sum :=
    fold_left (fun sum (t : Transaction) => (sum + amount t)%float)
      (filter (fun t : Transaction => TxRow.type t = income) filteredTransactions) zero in
  let expenses_sum :=
    fold_left (fun sum (t : Transaction) => (sum + amount t)%float)
      (filter (fun t : Transaction => TxRow.type t = expense) filteredTransactions) zero in
  {| total_income := income_sum;
     total_expenses := expenses_sum;
     balance := (income_sum - expenses_sum)%float |}.

(** [balance >= 0 ? emerald : red] and [Math.abs(balance)]. *)
Definition balanceDisplay (b : float) : Cue * float :=
  (if (0 <=? b)%float then emerald else red, abs b).


(** The sum of the amounts of a whole view, added in its order. *)
Definition sum_amounts (l : list Transaction) : float :=
  fold_left (fun sum (t : Transaction) => (sum + amount t)%float) l zero.
End Number.

(** A transaction of the owner ["u"] with the given kind and amount in
    cents, and three views: three incomes of 0.10, 0.20 and 0.30; an
    income of 0.30 against expenses of 0.10 and 0.20; an income of 2.20
    between expenses of 1.10 and 3.30. *)
Definition entry (id : string) (k : Kind) (cents : Z) : Transaction :=
  {| row := TxRow.mk id "u" None cents k "entry" "2024-05-01" 0 0;
     category := None |}.



Definition mixed_view : list Transaction :=
  [entry "a" expense 110; entry "b" income 220; entry "c" expense 330].

(** ** The category select of the editor ([AddTransactionModal])

    [<select value={categoryId} required>] with the placeholder option of
    value [""] followed by one option per candidate.  The option whose
    value is [categoryId] is the selected one; when no option has that
    value the first option, the placeholder, is selected.  A required
    select with the empty value blocks the submission of the form. *)
Definition selectOptions (m : Modal) : list string :=
  "" :: map Category.id (categories m).

Definition selectValue (m : Modal) : string :=
  if decide (categoryId m ∈ selectOptions m) then categoryId m else "".

Definition selectValid (m : Modal) : bool := truthy (selectValue m).

(** ** Further statements on the store

    The other statements the components issue, against the same schema.
    The primary keys default to [gen_random_uuid()] and the timestamps to
    [now()]: the generated ids and the current time are parameters. *)

(** The payload [transactionData] of the editor. *)
Record TransactionData : Type := {
  data_user_id : string;
  data_amount : Z;
  data_type : Kind;
  data_description : string;
  data_category_id : option string;
  data_date : string
}.

(** [category_id uuid REFERENCES categories(id)]: [NULL], or the id of a
    row of [categories]. *)
Definition fk_ok (db : Db) (c : option string) : Prop :=
  match c with
  | None => True
  | Some cid => cid ∈ map Category.id (tbl_categories db)
  end.

#[global] Instance fk_ok_dec db c : Decision (fk_ok db c).
Proof. destruct c; simpl; apply _. Defined.

(** [amount numeric(10, 2) NOT NULL CHECK (amount > 0)], in cents. *)
Definition amount_ok (a : Z) : Prop := 0 < a < 10000000000.

(** What the table accepts as a new version of a row written by [uid]:
    the policy check [auth.uid() = user_id], the amount check, the
    foreign key, and a [date] that is a calendar date (a text in another
    date style, which PostgreSQL would normalise, counts as rejected
    here). *)
Definition data_ok (db : Db) (uid : string) (d : TransactionData) : Prop :=
  data_user_id d = uid /\ amount_ok (data_amount d) /\
  fk_ok db (data_category_id d) /\ calendar_date (data_date d).

#[global] Instance data_ok_dec db uid d : Decision (data_ok db uid d).
Proof. unfold data_ok, amount_ok. apply _. Defined.

(** [INSERT INTO transactions]; [None] is a rejected statement. *)
Definition insert_transaction (uid : string) (now : Z) (new_id : string)
    (d : TransactionData) (db : Db) : option Db :=
  if decide (data_ok db uid d /\ new_id ∉ map TxRow.id (tbl_transactions db))
  then Some {| tbl_categories := tbl_categories db;
               tbl_transactions :=
                 (tbl_transactions db ++
                  [TxRow.mk new_id (data_user_id d) (data_category_id d)
                     (data_amount d) (data_type d) (data_description d)
                     (data_date d) now now])%list |}
  else None.

(** The assignment of the payload's columns to a row. *)
Definition assign (d : TransactionData) (r : TxRow.t) : TxRow.t :=
  TxRow.mk (TxRow.id r) (data_user_id d) (data_category_id d) (data_amount d)
           (data_type d) (data_description d) (data_date d)
           (TxRow.created_at r) (TxRow.updated_at r).

(** [UPDATE transactions SET ... WHERE id = tid], under the policy
    "Users can update own transactions"; the trigger stamps [updated_at]. *)
Definition update_transaction (uid : string) (now : Z) (tid : string)
    (d : TransactionData) (db : Db) : option Db :=
  let target := fun r => TxRow.id r = tid /\ TxRow.user_id r = uid in
  if decide (Exists target (tbl_transactions db)) then
    if decide (data_ok db uid d) then
      Some {| tbl_categories := tbl_categories db;
              tbl_transactions :=
                map (fun r => if decide (target r) then update_row now (assign d) r else r)
                    (tbl_transactions db) |}
    else None
  else Some db.

(** [DELETE FROM transactions WHERE id = tid], under the policy
    "Users can delete own transactions". *)
Definition delete_transaction (uid tid : string) (db : Db) : Db :=
  {| tbl_categories := tbl_categories db;
     tbl_transactions :=
       filter (fun r => ~ (TxRow.id r = tid /\ TxRow.user_id r = uid))
              (tbl_transactions db) |}.

Definition new_category_row (id : string) (now : Z) (c : NewCategory) : Category.t :=
  Category.mk id (new_user_id c) (new_name c) (new_type c) (new_color c)
              (new_icon c) now.

(** [INSERT INTO categories] of several rows in one statement: the
    [k]-th row receives the id [uuid k]; the policy check
    [auth.uid() = user_id] and the primary key reject the whole
    statement. *)
Definition insert_categories (uid : string) (now : Z) (uuid : nat -> string)
    (rows : list NewCategory) (db : Db) : option Db :=
  let ids := map uuid (seq 0 (length rows)) in
  if decide (Forall (fun c => new_user_id c = uid) rows /\
             NoDup (map Category.id (tbl_categories db) ++ ids)%list)
  then Some {| tbl_categories :=
                 (tbl_categories db ++
                  zip_with (fun id c => new_category_row id now c) ids rows)%list;
               tbl_transactions := tbl_transactions db |}
  else None.

(** [UPDATE categories SET name, type, color WHERE id = cid], under the
    policy "Users can update own categories". *)
Definition update_category (uid cid : string) (n : string) (k : Kind) (col : string)
    (db : Db) : Db :=
  {| tbl_categories :=
       map (fun c => if decide (Category.id c = cid /\ Category.user_id c = uid)
                     then Category.mk (Category.id c) (Category.user_id c) n k col
                                      (Category.icon c) (Category.created_at c)
                     else c)
           (tbl_categories db);
     tbl_transactions := tbl_transactions db |}.

(** The text of a kind, as the column [type] stores it. *)
Definition kind_text (k : Kind) : string :=
  match k with
  | expense => "expense"
  | income => "income"
  end.

(** [from('categories').select('*').order('type').order('name')], the
    query of the category manager. *)
Definition select_categories (collate : string -> string -> Z) (db : Db)
    (uid : string) : list Category.t :=
  sort (fun a b =>
          let by_type := collate (kind_text (Category.type a)) (kind_text (Category.type b)) in
          Some (if by_type =? 0
                then collate (Category.name a) (Category.name b)
                else by_type))
       (filter (fun c => Category.user_id c = uid) (tbl_categories db)).

(** The statements of the components, and a history of them: a rejected
    statement leaves the store as it is. *)
Inductive Statement : Type :=
  | InsertTransaction (uid : string) (now : Z) (new_id : string) (d : TransactionData)
  | UpdateTransaction (uid : string) (now : Z) (tid : string) (d : TransactionData)
  | DeleteTransaction (uid tid : string)
  | InsertCategories (uid : string) (now : Z) (uuid : nat -> string)
                     (rows : list NewCategory)
  | UpdateCategory (uid cid : string) (n : string) (k : Kind) (col : string)
  | DeleteCategory (uid : string) (now : Z) (cid : string).

Definition execute (s : Statement) (db : Db) : Db :=
  match s with
  | InsertTransaction uid now new_id d => default db (insert_transaction uid now new_id d db)
  | UpdateTransaction uid now tid d => default db (update_transaction uid now tid d db)
  | DeleteTransaction uid tid => delete_transaction uid tid db
  | InsertCategories uid now uuid rows => default db (insert_categories uid now uuid rows db)
  | UpdateCategory uid cid n k col => update_category uid cid n k col db
  | DeleteCategory uid now cid => default db (delete_category uid now cid db)
  end.

Definition history (l : list Statement) (db : Db) : Db :=
  fold_left (fun db s => execute s db) l db.

Definition empty_db : Db := {| tbl_categories := []; tbl_transactions := [] |}.

(** The constraints of the schema on a store: amounts, dates, the
    foreign key and the two primary keys. *)
Definition store_ok (db : Db) : Prop :=
  Forall (fun r => amount_ok (TxRow.amount r) /\ calendar_date (TxRow.date r) /\
                   fk_ok db (TxRow.category_id r)) (tbl_transactions db) /\
  NoDup (map TxRow.id (tbl_transactions db)) /\
  NoDup (map Category.id (tbl_categories db)).

(** ** Deleting a transaction ([Dashboard.tsx]) *)

(** [handleDeleteTransaction]: after the confirmation, the delete and
    the reload, whose reply is [reply]. *)
Definition handleDeleteTransaction (confirmed : bool) (uid id : string)
    (reply : Response (list Transaction)) (db : Db) (st : Dashboard)
    : Db * Dashboard :=
  if confirmed
  then (delete_transaction uid id db, loadTransactions reply st)
  else (db, st).

(** ** The category manager ([CategoryManager.tsx]) *)

Module CategoryManager.
Record FormData : Type := {
  name : string;
  type : Kind;
  color : string
}.

Record State : Type := {
  categories : list Category.t;
  isAdding : bool;
  editingId : option string;
  formData : FormData
}.

Definition PRESET_COLORS : list string :=
  [ "#ef4444"; "#f97316"; "#f59e0b"; "#eab308"; "#84cc16"; "#22c55e";
    "#10b981"; "#14b8a6"; "#06b6d4"; "#3b82f6"; "#6366f1"; "#8b5cf6";
    "#a855f7"; "#d946ef"; "#ec4899"; "#f43f5e" ].

(** [{ name: '', type: 'expense', color: PRESET_COLORS[0] }]. *)
Definition blank : FormData :=
  {| name := ""; type := expense; color := nth 0 PRESET_COLORS "" |}.

Definition loadCategories (reply : Response (list Category.t)) (st : State) : State :=
  match reply with
  | Data data =>
      {| categories := data; isAdding := isAdding st; editingId := editingId st;
         formData := formData st |}
  | Failed => st
  end.

Definition handleEdit (category : Category.t) (st : State) : State :=
  {| categories := categories st;
     isAdding := true;
     editingId := Some (Category.id category);
     formData := {| name := Category.name category; type := Category.type category;
                    color := Category.color category |} |}.

Definition cancelForm (st : State) : State :=
  {| categories := categories st; isAdding := false; editingId := None;
     formData := blank |}.

(** The statement that [handleSubmit] issues: an update when
    [editingId] is truthy, an insert with the icon ['circle'] otherwise. *)
Definition submitStatement (uid : string) (now : Z) (uuid : nat -> string)
    (st : State) : Statement :=
  let f := formData st in
  match editingId st with
  | Some id =>
      if truthy id then UpdateCategory uid id (name f) (type f) (color f)
      else InsertCategories uid now uuid
             [ {| new_name := name f; new_type := type f; new_color := color f;
                  new_icon := "circle"; new_user_id := uid |} ]
  | None =>
      InsertCategories uid now uuid
        [ {| new_name := name f; new_type := type f; new_color := color f;
             new_icon := "circle"; new_user_id := uid |} ]
  end.

(** [handleSubmit]: nothing without a user; otherwise the statement, the
    reset of the form and the reload, whose reply is [reply]. *)
Definition handleSubmit (user : option string) (now : Z) (uuid : nat -> string)
    (reply : Response (list Category.t)) (db : Db) (st : State) : Db * State :=
  match user with
  | None => (db, st)
  | Some uid =>
      (execute (submitStatement uid now uuid st) db,
       loadCategories reply (cancelForm st))
  end.

Definition expenseCategories (st : State) : list Category.t :=
  filter (fun c => Category.type c = expense) (categories st).

Definition incomeCategories (st : State) : list Category.t :=
  filter (fun c => Category.type c = income) (categories st).
End CategoryManager.

(** ** The fields of the transaction editor ([AddTransactionModal]) *)

Module Editor.
(** The text fields of the form beside [type] and [categoryId]. *)
Record Fields : Type := {
  amount : string;
  description : string;
  date : string
}.

(** [editTransaction.category_id || '']. *)
Definition formCategory (category_id : option string) : string :=
  match category_id with
  | Some id => if truthy id then id else ""
  | None => ""
  end.

(** [categoryId || null]. *)
Definition submittedCategory (categoryId : string) : option string :=
  if truthy categoryId then Some categoryId else None.


(** [transactionData]; [cents] is the amount that the column stores for
    [parseFloat(amount)]. *)
Definition transactionData (uid : string) (cents : string -> Z) (m : Modal)
    (f : Fields) : TransactionData :=
  {| data_user_id := uid;
     data_amount := cents (amount f);
     data_type := type m;
     data_description := description f;
     data_category_id := submittedCategory (categoryId m);
     data_date := date f |}.

(** The statement that [handleSubmit] issues: an update of the
    transaction under edit, or an insert. *)
Definition submitStatement (uid : string) (now : Z) (new_id : string)
    (cents : string -> Z) (m : Modal) (f : Fields) : Statement :=
  match editTransaction m with
  | Some e => UpdateTransaction uid now (TxRow.id e) (transactionData uid cents m f)
  | None => InsertTransaction uid now new_id (transactionData uid cents m f)
  end.

(** [handleSubmit]: nothing without a user. *)
Definition handleSubmit (user : option string) (now : Z) (new_id : string)
    (cents : string -> Z) (m : Modal) (f : Fields) (db : Db) : Db :=
  match user with
  | None => db
  | Some uid => execute (submitStatement uid now new_id cents m f) db
  end.
End Editor.

(** The value of [<input type="month">]: [YYYY-MM]. *)
Definition parseMonth (s : string) : option (Z * Z) :=
  match s with
  | String y1 (String y2 (String y3 (String y4 (String sep
      (String m1 (String m2 EmptyString)))))) =>
      if Ascii.eqb sep "-"%char then
        match number4 y1 y2 y3 y4, number2 m1 m2 with
        | Some y, Some m => Some (y, m)
        | _, _ => None
        end
      else None
  | _ => None
  end.

(** * Proofs *)

(** ** Totals *)

Lemma fold_left_amounts (l : list Transaction) (a : Z) :
  fold_left (fun sum (t : Transaction) => sum + TxRow.amount t) l a = a + sum_amounts l.
Proof.
  revert a. induction l as [|t l IH]; intros a; simpl.
  - lia.
  - rewrite IH. lia.
Qed.

Lemma sum_amounts_filter (k : Kind) (l : list Transaction) :
  sum_amounts (filter (fun t : Transaction => TxRow.type t = k) l) = sum_of_kind k l.
Proof.
  induction l as [|t l IH]; simpl; [reflexivity|].
  rewrite filter_cons. destruct (decide (TxRow.type t = k)); simpl; lia.
Qed.

Lemma sum_of_kind_split (l : list Transaction) :
  sum_of_kind income l + sum_of_kind expense l = sum_amounts l.
Proof.
  induction l as [|t l IH]; simpl; [reflexivity|].
  destruct (TxRow.type t);
    repeat (destruct (decide _) as [?|?]; try congruence); lia.
Qed.

Lemma calculateTotals_sums (filtered : list Transaction) :
  calculateTotals filtered =
    {| total_income := sum_of_kind income filtered;
       total_expenses := sum_of_kind expense filtered;
       balance := sum_of_kind income filtered - sum_of_kind expense filtered |}.
Proof.
  unfold calculateTotals. by rewrite !fold_left_amounts, !sum_amounts_filter.
Qed.

(** On the exact amounts, the two passes give the sums of each kind and
    their difference, an integer of either sign. *)
Lemma calculateTotals_exact (filtered : list Transaction) :
  total_income (calculateTotals filtered) = sum_of_kind income filtered /\
  total_expenses (calculateTotals filtered) = sum_of_kind expense filtered /\
  balance (calculateTotals filtered)
    = total_income (calculateTotals filtered) - total_expenses (calculateTotals filtered).
Proof. rewrite calculateTotals_sums. simpl. repeat split. Qed.




(** The balance card shows the magnitude of the balance, with the red
    cue exactly when the balance is negative. *)
Lemma balanceDisplay_cue (b : Z) :
  balanceDisplay b = if decide (b < 0) then (red, - b) else (emerald, b).
Proof.
  unfold balanceDisplay.
  destruct (decide (b < 0)); destruct (Z.leb_spec 0 b); try lia; f_equal; lia.
Qed.

Lemma kinds_partition (l : list Transaction) :
  (filter (fun t : Transaction => TxRow.type t = income) l
   ++ filter (fun t : Transaction => TxRow.type t = expense) l)%list ≡ₚ l.
Proof.
  induction l as [|t l IH]; [reflexivity|].
  rewrite !filter_cons. destruct (TxRow.type t) eqn:E.
  - destruct (decide (expense = income)); [discriminate|].
    destruct (decide (expense = expense)); [|done].
    rewrite <- Permutation_middle. by constructor.
  - destruct (decide (income = income)); [|done].
    destruct (decide (income = expense)); [discriminate|].
    simpl. by constructor.
Qed.

Lemma kinds_exclusive (l : list Transaction) (t : Transaction) :
  t ∈ l ->
  ((t ∈ filter (fun t : Transaction => TxRow.type t = income) l) /\
   (t ∉ filter (fun t : Transaction => TxRow.type t = expense) l)) \/
  ((t ∉ filter (fun t : Transaction => TxRow.type t = income) l) /\
   (t ∈ filter (fun t : Transaction => TxRow.type t = expense) l)).
Proof.
  intros Ht. rewrite !list_elem_of_filter.
  destruct (TxRow.type t) eqn:E; [right|left]; split; try done;
    intros [E' _]; discriminate.
Qed.

(** C10, as the code has it. Every transaction of a view is counted in
    exactly one of the two totals: it passes exactly one of the two
    filters of [calculateTotals], and the income transactions and the
    expense transactions together are a rearrangement of the view.  On
    the exact amounts income plus expenses is the sum of the amounts of
    the whole view. *)
Theorem calculateTotals_counts_once (filtered : list Transaction) :
  (filter (fun t : Transaction => TxRow.type t = income) filtered
   ++ filter (fun t : Transaction => TxRow.type t = expense) filtered)%list
    ≡ₚ filtered /\
  Forall (fun t : Transaction =>
            ((t ∈ filter (fun t : Transaction => TxRow.type t = income) filtered) /\
             (t ∉ filter (fun t : Transaction => TxRow.type t = expense) filtered)) \/
            ((t ∉ filter (fun t : Transaction => TxRow.type t = income) filtered) /\
             (t ∈ filter (fun t : Transaction => TxRow.type t = expense) filtered)))
         filtered /\
  total_income (calculateTotals filtered) + total_expenses (calculateTotals filtered)
    = sum_amounts filtered.
Proof.
  split; [apply kinds_partition|]. split.
  - apply Forall_forall. intros t Ht. by apply kinds_exclusive.
  - rewrite calculateTotals_sums. simpl. apply sum_of_kind_split.
Qed.

(** C10, as stated, fails on the numbers the code adds.  For an income
    of 2.20 between expenses of 1.10 and 3.30, income plus expenses as
    the code computes them is 6.6000000000000005, which is neither the
    sum of the three amounts added in the order of the view nor the
    number 6.6 of their exact sum. *)
Lemma calculateTotals_sum_rounds :
  sum_amounts mixed_view = 660 /\
  PrimFloat.eqb
    (PrimFloat.add (Number.total_income (Number.calculateTotals mixed_view))
                   (Number.total_expenses (Number.calculateTotals mixed_view)))
    (Number.sum_amounts mixed_view) = false /\
  PrimFloat.eqb
    (PrimFloat.add (Number.total_income (Number.calculateTotals mixed_view))
                   (Number.total_expenses (Number.calculateTotals mixed_view)))
    (Number.of_cents 660) = false.
Proof. repeat split; vm_compute; reflexivity. Qed.

(** ** Filters *)

Lemma prefix_empty (s : string) : String.prefix "" s = true.
Proof. destruct s; reflexivity. Qed.

Lemma filter_all_true {A : Type} (P : A -> Prop) `{!forall x, Decision (P x)}
    (l : list A) :
  (forall x, P x) -> filter P l = l.
Proof.
  intros HP. induction l as [|x l IH]; [reflexivity|].
  rewrite filter_cons. destruct (decide (P x)); [by rewrite IH | by destruct n].
Qed.

Lemma filter_ext_in {A : Type} (P Q : A -> Prop)
    `{!forall x, Decision (P x)} `{!forall x, Decision (Q x)} (l : list A) :
  (forall x, x ∈ l -> (P x <-> Q x)) -> filter P l = filter Q l.
Proof.
  induction l as [|x l IH]; intros Hall; [reflexivity|].
  rewrite !filter_cons.
  assert (Hx : P x <-> Q x) by (apply Hall; left).
  assert (Hl : filter P l = filter Q l) by (apply IH; intros y Hy; apply Hall; by right).
  destruct (decide (P x)), (decide (Q x)); try tauto; by rewrite Hl.
Qed.

(** [applyFilters] is one pass that keeps the transactions passing both
    tests. *)
Lemma applyFilters_filter (T : list Transaction) (F : FilterType) (P : string) :
  applyFilters T F P = filter (fun t => type_ok F t /\ month_ok P t) T.
Proof.
  unfold applyFilters.
  assert (HF : match F with
               | all => T
               | only k => filter (fun t : Transaction => TxRow.type t = k) T
               end = filter (type_ok F) T).
  { destruct F; simpl; [|reflexivity]. symmetry. by apply filter_all_true. }
  rewrite HF. clear HF.
  unfold truthy. destruct (String.eqb_spec P "") as [->|HP]; simpl.
  - apply list_filter_iff. intros t. unfold month_ok. rewrite prefix_empty. tauto.
  - rewrite list_filter_filter. apply list_filter_iff. intros t.
    unfold month_ok. tauto.
Qed.

(** C2. The view under a type filter and a period is the intersection of
    the view under the type filter alone and the view under the period
    alone: a transaction is kept exactly when it passes both tests, and
    the view is a subsequence of the input (nothing is re-sorted). *)
Theorem applyFilters_intersection (T : list Transaction) (F : FilterType)
    (P : string) :
  applyFilters T F P
    = list_intersection (applyFilters T F "") (applyFilters T all P) /\
  (forall t, t ∈ applyFilters T F P <-> t ∈ T /\ type_ok F t /\ month_ok P t) /\
  sublist (applyFilters T F P) T.
Proof.
  rewrite !applyFilters_filter. split; [|split].
  - assert (Hi : forall l k : list Transaction,
               list_intersection l k = filter (fun x => x ∈ k) l).
    { intros l k. induction l as [|x l IH]; [reflexivity|].
      simpl. rewrite filter_cons.
      destruct (decide_rel elem_of x k), (decide (x ∈ k)); try tauto;
        by rewrite IH. }
    rewrite Hi, list_filter_filter.
    apply filter_ext_in. intros t Ht.
    rewrite list_elem_of_filter. unfold month_ok. rewrite prefix_empty.
    simpl. tauto.
  - intros t. rewrite list_elem_of_filter. tauto.
  - apply sublist_filter.
Qed.

(** ** Calendar dates *)

Lemma digit_range (c : ascii) (x : Z) : digit c = Some x -> 0 <= x <= 9.
Proof.
  unfold digit. destruct (_ && _) eqn:E; [|discriminate].
  intros [= <-]. apply andb_prop in E. lia.
Qed.

Lemma digit_inj (a b : ascii) (x : Z) :
  digit a = Some x -> digit b = Some x -> a = b.
Proof.
  unfold digit.
  destruct (_ && _); [|discriminate]. intros [= Ha].
  destruct (_ && _); [|discriminate]. intros [= Hb].
  rewrite <- (ascii_nat_embedding a), <- (ascii_nat_embedding b).
  f_equal. lia.
Qed.

Lemma number2_range (a b : ascii) (x : Z) : number2 a b = Some x -> 0 <= x <= 99.
Proof.
  unfold number2.
  destruct (digit a) eqn:Ea; [|discriminate].
  destruct (digit b) eqn:Eb; [|discriminate].
  intros [= <-]. apply digit_range in Ea, Eb. lia.
Qed.

Lemma number2_inj (a b a' b' : ascii) (x : Z) :
  number2 a b = Some x -> number2 a' b' = Some x -> a = a' /\ b = b'.
Proof.
  unfold number2.
  destruct (digit a) as [u|] eqn:Ea; [|discriminate].
  destruct (digit b) as [v|] eqn:Eb; [|discriminate].
  destruct (digit a') as [u'|] eqn:Ea'; [|discriminate].
  destruct (digit b') as [v'|] eqn:Eb'; [|discriminate].
  intros [= <-] [= H].
  pose proof (digit_range _ _ Ea). pose proof (digit_range _ _ Eb).
  pose proof (digit_range _ _ Ea'). pose proof (digit_range _ _ Eb').
  assert (u' = u) by lia. assert (v' = v) by lia. subst.
  split; eapply digit_inj; eassumption.
Qed.

Lemma number4_inj (a b c d a' b' c' d' : ascii) (x : Z) :
  number4 a b c d = Some x -> number4 a' b' c' d' = Some x ->
  a = a' /\ b = b' /\ c = c' /\ d = d'.
Proof.
  unfold number4.
  destruct (number2 a b) as [u|] eqn:Ea; [|discriminate].
  destruct (number2 c d) as [v|] eqn:Eb; [|discriminate].
  destruct (number2 a' b') as [u'|] eqn:Ea'; [|discriminate].
  destruct (number2 c' d') as [v'|] eqn:Eb'; [|discriminate].
  intros [= <-] [= H].
  pose proof (number2_range _ _ _ Ea). pose proof (number2_range _ _ _ Eb).
  pose proof (number2_range _ _ _ Ea'). pose proof (number2_range _ _ _ Eb').
  assert (u' = u) by lia. assert (v' = v) by lia. subst.
  destruct (number2_inj _ _ _ _ _ Ea Ea'), (number2_inj _ _ _ _ _ Eb Eb'). auto.
Qed.

Lemma parseDate_inj (s s' : string) (p : Z * Z * Z) :
  parseDate s = Some p -> parseDate s' = Some p -> s = s'.
Proof.
  unfold parseDate.
  do 10 (destruct s as [|? s]; [discriminate|]).
  destruct s; [|discriminate].
  do 10 (destruct s' as [|? s']; [discriminate|]).
  destruct s'; [|discriminate].
  repeat match goal with
         | |- context [Ascii.eqb ?x ?y] => destruct (Ascii.eqb_spec x y); [subst|discriminate]
         end.
  simpl.
  repeat match goal with
         | |- context [match ?e with Some _ => _ | None => _ end] =>
             let E := fresh "E" in destruct e eqn:E; [|discriminate]
         end.
  intros [= <-] [= -> -> ->].
  repeat match goal with
         | H1 : number4 _ _ _ _ = Some ?x, H2 : number4 _ _ _ _ = Some ?x |- _ =>
             destruct (number4_inj _ _ _ _ _ _ _ _ _ H1 H2) as (-> & -> & -> & ->);
             clear H1 H2
         | H1 : number2 _ _ = Some ?x, H2 : number2 _ _ = Some ?x |- _ =>
             destruct (number2_inj _ _ _ _ _ H1 H2) as (-> & ->); clear H1 H2
         end.
  reflexivity.
Qed.

Lemma DaysInYear_cases (y : Z) : DaysInYear y = 365 \/ DaysInYear y = 366.
Proof. unfold DaysInYear. destruct (InLeapYear y); auto. Qed.

Lemma DayFromYear_succ (y : Z) : DayFromYear (y + 1) = DayFromYear y + DaysInYear y.
Proof.
  unfold DayFromYear, DaysInYear, InLeapYear.
  destruct (Z.eqb_spec (y mod 4) 0), (Z.eqb_spec (y mod 100) 0),
    (Z.eqb_spec (y mod 400) 0); simpl;
    Z.div_mod_to_equations; lia.
Qed.

Lemma DayFromYear_mono (y1 y2 : Z) : y1 <= y2 -> DayFromYear y1 <= DayFromYear y2.
Proof.
  intros H. unfold DayFromYear. Z.div_mod_to_equations. lia.
Qed.

Lemma DaysBeforeMonth_bounds (y m d : Z) :
  1 <= m <= 12 -> 1 <= d <= DaysInMonth y m ->
  0 <= DaysBeforeMonth y m + (d - 1) < DaysInYear y.
Proof.
  intros Hm Hd. unfold DaysBeforeMonth, DaysInMonth, DaysInYear in *.
  assert (Hc : m = 1 \/ m = 2 \/ m = 3 \/ m = 4 \/ m = 5 \/ m = 6 \/ m = 7 \/
               m = 8 \/ m = 9 \/ m = 10 \/ m = 11 \/ m = 12) by lia.
  destruct (InLeapYear y);
    repeat (destruct Hc as [->|Hc]; [simpl in *; lia|]); subst; simpl in *; lia.
Qed.

Lemma DaysBeforeMonth_inj (y m d m' d' : Z) :
  1 <= m <= 12 -> 1 <= d <= DaysInMonth y m ->
  1 <= m' <= 12 -> 1 <= d' <= DaysInMonth y m' ->
  DaysBeforeMonth y m + (d - 1) = DaysBeforeMonth y m' + (d' - 1) ->
  m = m' /\ d = d'.
Proof.
  intros Hm Hd Hm' Hd'. unfold DaysBeforeMonth, DaysInMonth in *.
  assert (Hc : m = 1 \/ m = 2 \/ m = 3 \/ m = 4 \/ m = 5 \/ m = 6 \/ m = 7 \/
               m = 8 \/ m = 9 \/ m = 10 \/ m = 11 \/ m = 12) by lia.
  assert (Hc' : m' = 1 \/ m' = 2 \/ m' = 3 \/ m' = 4 \/ m' = 5 \/ m' = 6 \/ m' = 7 \/
               m' = 8 \/ m' = 9 \/ m' = 10 \/ m' = 11 \/ m' = 12) by lia.
  destruct (InLeapYear y);
    repeat (destruct Hc as [->|Hc]); subst;
    repeat (destruct Hc' as [->|Hc']); subst; simpl in *; lia.
Qed.

Lemma MakeDay_year (y m d : Z) :
  1 <= m <= 12 -> 1 <= d <= DaysInMonth y m ->
  DayFromYear y <= MakeDay y m d < DayFromYear (y + 1).
Proof.
  intros Hm Hd. rewrite DayFromYear_succ. unfold MakeDay.
  pose proof (DaysBeforeMonth_bounds y m d Hm Hd). lia.
Qed.

Lemma MakeDay_inj (y m d y' m' d' : Z) :
  1 <= m <= 12 -> 1 <= d <= DaysInMonth y m ->
  1 <= m' <= 12 -> 1 <= d' <= DaysInMonth y' m' ->
  MakeDay y m d = MakeDay y' m' d' ->
  y = y' /\ m = m' /\ d = d'.
Proof.
  intros Hm Hd Hm' Hd' E.
  pose proof (MakeDay_year y m d Hm Hd) as B.
  pose proof (MakeDay_year y' m' d' Hm' Hd') as B'.
  assert (y = y') as <-.
  { destruct (Z.lt_trichotomy y y') as [Hlt|[Heq|Hgt]]; [|exact Heq|].
    - pose proof (DayFromYear_mono (y + 1) y'). lia.
    - pose proof (DayFromYear_mono (y' + 1) y). lia. }
  split; [reflexivity|].
  unfold MakeDay in E. apply (DaysBeforeMonth_inj y); try assumption. lia.
Qed.

Lemma dayNumber_inj (s s' : string) (n : Z) :
  dayNumber s = Some n -> dayNumber s' = Some n -> s = s'.
Proof.
  unfold dayNumber.
  destruct (parseDate s) as [[[y m] d]|] eqn:E; [|discriminate].
  destruct (parseDate s') as [[[y' m'] d']|] eqn:E'; [|discriminate].
  destruct (_ && _) eqn:V; [|discriminate].
  destruct (_ && _) eqn:V' in |- *; [|discriminate].
  intros [= <-] [= H].
  repeat (apply andb_prop in V; destruct V as [V ?]).
  repeat (apply andb_prop in V'; destruct V' as [V' ?]).
  destruct (MakeDay_inj y' m' d' y m d) as (-> & -> & ->); try lia.
  eapply parseDate_inj; eassumption.
Qed.

Lemma getTime_dayNumber (s : string) (n : Z) :
  dayNumber s = Some n -> getTime s = Some (n * msPerDay).
Proof. unfold getTime. by intros ->. Qed.

(** ** The stable sort *)

Section SortFacts.
Context {A : Type} (comparefn : A -> A -> option Z).

Lemma insert_sorted_perm (x : A) (l : list A) :
  insert_sorted comparefn x l ≡ₚ x :: l.
Proof.
  induction l as [|y l IH]; simpl; [reflexivity|].
  destruct (SortCompare comparefn x y <=? 0); [reflexivity|].
  rewrite IH. apply Permutation_swap.
Qed.

Lemma sort_perm (l : list A) : sort comparefn l ≡ₚ l.
Proof.
  induction l as [|x l IH]; simpl; [reflexivity|].
  rewrite insert_sorted_perm. by rewrite IH.
Qed.

Lemma sort_elem_of (x : A) (l : list A) : x ∈ sort comparefn l <-> x ∈ l.
Proof. by rewrite sort_perm. Qed.

(** The comparator decides a transitive relation [R] on the elements of
    [dom]: the sort then orders them by [R]. *)
Context (R : relation A) (dom : A -> Prop).
Context `{!Transitive R}.
Hypothesis compare_le :
  forall x y, dom x -> dom y -> SortCompare comparefn x y <= 0 -> R x y.
Hypothesis compare_gt :
  forall x y, dom x -> dom y -> 0 < SortCompare comparefn x y -> R y x.

Lemma insert_sorted_sorted (x : A) (l : list A) :
  dom x -> Forall dom l -> StronglySorted R l ->
  StronglySorted R (insert_sorted comparefn x l).
Proof.
  intros Hx Hl Hs. induction Hs as [|y l Hs IH Hy]; simpl.
  - repeat constructor.
  - apply Forall_cons in Hl as [Hdy Hl].
    destruct (Z.leb_spec (SortCompare comparefn x y) 0) as [Hle|Hgt].
    + assert (Rxy : R x y) by auto.
      constructor; [by constructor|].
      constructor; [exact Rxy|].
      eapply Forall_impl; [exact Hy|]. intros z Rz. by trans y.
    + constructor; [by apply IH|].
      apply Forall_forall. intros z Hz.
      rewrite insert_sorted_perm in Hz. apply elem_of_cons in Hz as [->|Hz].
      * auto.
      * rewrite Forall_forall in Hy. auto.
Qed.

Lemma sort_sorted (l : list A) :
  Forall dom l -> StronglySorted R (sort comparefn l).
Proof.
  induction l as [|x l IH]; intros Hl; simpl; [constructor|].
  apply Forall_cons in Hl as [Hx Hl].
  apply insert_sorted_sorted; [exact Hx| |by apply IH].
  apply Forall_forall. intros z Hz. rewrite sort_elem_of in Hz.
  rewrite Forall_forall in Hl. auto.
Qed.
End SortFacts.

(** A list sorted by [R] and without duplicates is sorted by any relation
    that [R] implies between distinct elements. *)
Lemma StronglySorted_strict {A : Type} (R R' : relation A) (l : list A) :
  (forall x y, x ∈ l -> y ∈ l -> x <> y -> R x y -> R' x y) ->
  NoDup l -> StronglySorted R l -> StronglySorted R' l.
Proof.
  intros HR Hnd Hs. induction Hs as [|x l Hs IH Hx]; [constructor|].
  apply NoDup_cons in Hnd as [Hnx Hnd].
  constructor.
  - apply IH; [|exact Hnd]. intros y z Hy Hz. apply HR; by right.
  - apply Forall_forall. intros y Hy. rewrite Forall_forall in Hx.
    apply HR; [by left|by right| |auto].
    intros ->. contradiction.
Qed.

Lemma StronglySorted_map {A B : Type} (f : A -> B) (R : relation B) (l : list A) :
  StronglySorted (fun x y => R (f x) (f y)) l -> StronglySorted R (map f l).
Proof.
  induction 1 as [|x l Hs IH Hx]; simpl; constructor; [exact IH|].
  apply Forall_forall. intros y Hy.
  apply list_elem_of_fmap in Hy as (z & -> & Hz).
  rewrite Forall_forall in Hx. auto.
Qed.

(** ** Objects as dictionaries *)

Section ObjFacts.
Context {V : Type}.
Implicit Types (o : Obj V) (k : string) (v : V).

Lemma obj_get_None o k : obj_get o k = None <-> k ∉ obj_keys o.
Proof.
  induction o as [|[k' v'] o IH]; simpl.
  - split; [intros _; apply not_elem_of_nil|done].
  - destruct (String.eqb_spec k' k) as [->|Hne].
    + split; [discriminate|]. intros H. destruct H. left.
    + rewrite IH, not_elem_of_cons. intuition congruence.
Qed.

Lemma obj_get_Some_keys o k : is_Some (obj_get o k) <-> k ∈ obj_keys o.
Proof.
  rewrite <- not_eq_None_Some, obj_get_None.
  destruct (decide (k ∈ obj_keys o)); tauto.
Qed.

Lemma obj_get_set_eq o k v : obj_get (obj_set o k v) k = Some v.
Proof.
  induction o as [|[k' v'] o IH]; simpl.
  - by rewrite String.eqb_refl.
  - destruct (String.eqb_spec k' k) as [->|Hne]; simpl.
    + by rewrite String.eqb_refl.
    + destruct (String.eqb_spec k' k); [done|exact IH].
Qed.

Lemma obj_get_set_ne o k k' v :
  k <> k' -> obj_get (obj_set o k v) k' = obj_get o k'.
Proof.
  intros Hne. induction o as [|[k0 v0] o IH]; simpl.
  - destruct (String.eqb_spec k k'); [done|reflexivity].
  - destruct (String.eqb_spec k0 k) as [->|Hk]; simpl.
    + destruct (String.eqb_spec k k'); [done|reflexivity].
    + destruct (String.eqb_spec k0 k'); [reflexivity|exact IH].
Qed.

Lemma obj_keys_set_present o k v :
  k ∈ obj_keys o -> obj_keys (obj_set o k v) = obj_keys o.
Proof.
  induction o as [|[k' v'] o IH]; simpl; intros Hk.
  - by apply elem_of_nil in Hk.
  - destruct (String.eqb_spec k' k) as [->|Hne]; simpl; [reflexivity|].
    apply elem_of_cons in Hk as [->|Hk]; [done|]. f_equal. by apply IH.
Qed.

Lemma obj_keys_set_absent o k v :
  k ∉ obj_keys o -> obj_keys (obj_set o k v) = (obj_keys o ++ [k])%list.
Proof.
  induction o as [|[k' v'] o IH]; simpl; intros Hk; [reflexivity|].
  apply not_elem_of_cons in Hk as [Hne Hk].
  destruct (String.eqb_spec k' k) as [->|_]; [done|]. simpl. f_equal. by apply IH.
Qed.
End ObjFacts.

(** ** Grouping by date *)

Lemma group_step_get (acc : Obj (list Transaction)) (t : Transaction) (k : string) :
  obj_get (group_step acc t) k =
    if decide (k = TxRow.date t)
    then Some (default [] (obj_get acc k) ++ [t])%list
    else obj_get acc k.
Proof.
  unfold group_step. destruct (decide (k = TxRow.date t)) as [->|Hne].
  - rewrite obj_get_set_eq. do 2 f_equal.
    destruct (obj_get acc (TxRow.date t)) eqn:E; [by rewrite E|].
    by rewrite obj_get_set_eq.
  - rewrite obj_get_set_ne by done.
    destruct (obj_get acc (TxRow.date t)); [reflexivity|].
    by rewrite obj_get_set_ne.
Qed.

Lemma group_step_keys (acc : Obj (list Transaction)) (t : Transaction) :
  obj_keys (group_step acc t) =
    if decide (TxRow.date t ∈ obj_keys acc)
    then obj_keys acc
    else (obj_keys acc ++ [TxRow.date t])%list.
Proof.
  unfold group_step.
  destruct (decide (TxRow.date t ∈ obj_keys acc)) as [Hin|Hnin].
  - destruct (proj2 (obj_get_Some_keys acc _) Hin) as [ts Hts]. rewrite Hts.
    by apply obj_keys_set_present.
  - rewrite (proj2 (obj_get_None acc _) Hnin).
    rewrite obj_keys_set_present.
    + by apply obj_keys_set_absent.
    + rewrite obj_keys_set_absent by done. apply elem_of_app. right. left.
Qed.

Lemma groupedTransactions_snoc (l : list Transaction) (t : Transaction) :
  groupedTransactions (l ++ [t]) = group_step (groupedTransactions l) t.
Proof. unfold groupedTransactions. by rewrite fold_left_app. Qed.

Lemma on_date_nil (k : string) (l : list Transaction) :
  k ∉ dates l -> on_date k l = [].
Proof.
  unfold dates, on_date. induction l as [|t l IH]; simpl; intros Hk; [reflexivity|].
  apply not_elem_of_cons in Hk as [Hne Hk].
  rewrite filter_cons. destruct (decide (TxRow.date t = k)); [done|]. by apply IH.
Qed.

Lemma dates_snoc (l : list Transaction) (t : Transaction) :
  dates (l ++ [t]) = (dates l ++ [TxRow.date t])%list.
Proof. unfold dates. by rewrite map_app. Qed.

Lemma on_date_snoc (k : string) (l : list Transaction) (t : Transaction) :
  on_date k (l ++ [t]) =
    (on_date k l ++ if decide (TxRow.date t = k) then [t] else [])%list.
Proof.
  unfold on_date. rewrite filter_app, filter_cons, filter_nil.
  by destruct (decide (TxRow.date t = k)).
Qed.

(** The value under a key is the sub-list of the transactions of that
    date, in arrival order. *)
Lemma groupedTransactions_get (l : list Transaction) (k : string) :
  obj_get (groupedTransactions l) k =
    if decide (k ∈ dates l) then Some (on_date k l) else None.
Proof.
  induction l as [|t l IH] using rev_ind.
  - simpl. destruct (decide (k ∈ dates [])) as [H|_]; [|reflexivity].
    by apply elem_of_nil in H.
  - rewrite groupedTransactions_snoc, group_step_get, IH.
    rewrite dates_snoc, on_date_snoc.
    assert (Hin : k ∈ (dates l ++ [TxRow.date t])%list <-> k ∈ dates l \/ k = TxRow.date t).
    { rewrite elem_of_app, list_elem_of_singleton. tauto. }
    repeat case_decide; subst; simpl; rewrite ?app_nil_r;
      try reflexivity; try tauto; try congruence.
    by rewrite on_date_nil.
Qed.

Lemma groupedTransactions_keys_elem (l : list Transaction) (k : string) :
  k ∈ obj_keys (groupedTransactions l) <-> k ∈ dates l.
Proof.
  rewrite <- obj_get_Some_keys, groupedTransactions_get.
  destruct (decide (k ∈ dates l)); split; intros H; done.
Qed.

Lemma groupedTransactions_keys_NoDup (l : list Transaction) :
  NoDup (obj_keys (groupedTransactions l)).
Proof.
  induction l as [|t l IH] using rev_ind; [constructor|].
  rewrite groupedTransactions_snoc, group_step_keys.
  case_decide as Hn; [exact IH|].
  apply NoDup_app. split; [exact IH|]. split.
  - intros x Hx Hx'. apply list_elem_of_singleton in Hx'. by subst.
  - apply NoDup_singleton.
Qed.

(** Splitting a list by the keys of a duplicate-free list that covers
    all its dates loses and repeats nothing. *)
Lemma concat_on_date (ks : list string) (l : list Transaction) :
  NoDup ks -> (forall t : Transaction, t ∈ l -> TxRow.date t ∈ ks) ->
  concat (map (fun k => on_date k l) ks) ≡ₚ l.
Proof.
  intros Hnd. revert l. induction Hnd as [|k ks Hk Hnd IH]; intros l Hcov; simpl.
  - destruct l as [|t l]; [reflexivity|].
    specialize (Hcov t ltac:(left)). by apply elem_of_nil in Hcov.
  - etrans; [|apply (filter_app_complement (fun t : Transaction => TxRow.date t = k) l)].
    apply Permutation_app; [reflexivity|].
    etrans; [|apply (IH (filter (fun t : Transaction => ~ TxRow.date t = k) l))].
    + assert (E : map (fun k' => on_date k' l) ks
                  = map (fun k' => on_date k' (filter (fun t : Transaction => ~ TxRow.date t = k) l)) ks);
        [|by rewrite E].
      apply map_ext_in. intros k' Hk'.
      apply list_elem_of_In in Hk'.
      unfold on_date. rewrite list_filter_filter.
      apply list_filter_iff. intros t. split; [|tauto].
      intros E. split; [exact E|]. intros E'. apply Hk. congruence.
    + intros t Ht. apply list_elem_of_filter in Ht as [Hne Ht].
      specialize (Hcov t Ht). apply elem_of_cons in Hcov as [E|Hin]; [done|exact Hin].
Qed.

Lemma groupByDate_on_date (l : list Transaction) :
  groupByDate l = map (fun d => (d, on_date d l)) (sortedDates l).
Proof.
  unfold groupByDate. apply map_ext_in. intros d Hd.
  apply list_elem_of_In in Hd. unfold sortedDates in Hd.
  rewrite sort_elem_of, groupedTransactions_keys_elem in Hd.
  rewrite groupedTransactions_get. by destruct (decide (d ∈ dates l)).
Qed.

Lemma groupByDate_dates (l : list Transaction) :
  map fst (groupByDate l) = sortedDates l.
Proof. unfold groupByDate. rewrite map_map. simpl. apply map_id. Qed.

Lemma sortedDates_perm (l : list Transaction) :
  sortedDates l ≡ₚ obj_keys (groupedTransactions l).
Proof. apply sort_perm. Qed.

Lemma later_date_days (a b : string) (da db : Z) :
  dayNumber a = Some da -> dayNumber b = Some db -> db < da -> later_date a b.
Proof.
  intros Ha Hb Hlt. unfold later_date.
  rewrite (getTime_dayNumber _ _ Ha), (getTime_dayNumber _ _ Hb).
  unfold msPerDay. lia.
Qed.

(** On calendar dates the comparator of [sortedDates] orders by
    descending day number, strictly so for distinct dates. *)
Lemma sortedDates_sorted (l : list Transaction) :
  Forall (fun t : Transaction => calendar_date (TxRow.date t)) l ->
  StronglySorted later_date (sortedDates l).
Proof.
  intros Hcal.
  assert (Hdom : Forall calendar_date (obj_keys (groupedTransactions l))).
  { apply Forall_forall. intros d Hd.
    apply groupedTransactions_keys_elem, list_elem_of_fmap in Hd as (t & -> & Ht).
    rewrite Forall_forall in Hcal. auto. }
  pose (R := fun a b : string => default 0 (dayNumber b) <= default 0 (dayNumber a)).
  assert (HT : Transitive R) by (intros x y z; unfold R; lia).
  apply (StronglySorted_strict R).
  - intros x y Hx Hy Hne Rxy.
    rewrite sortedDates_perm in Hx, Hy. rewrite Forall_forall in Hdom.
    destruct (Hdom x Hx) as [dx Ex], (Hdom y Hy) as [dy Ey].
    unfold R in Rxy. rewrite Ex, Ey in Rxy. simpl in Rxy.
    apply (later_date_days _ _ dx dy); [done|done|].
    destruct (decide (dx = dy)) as [->|]; [|lia].
    destruct Hne. eapply dayNumber_inj; eassumption.
  - rewrite sortedDates_perm. apply groupedTransactions_keys_NoDup.
  - unfold sortedDates.
    apply (sort_sorted compareDates R calendar_date); [| |exact Hdom].
    + intros x y [dx Ex] [dy Ey]. unfold SortCompare, compareDates, R.
      rewrite (getTime_dayNumber _ _ Ex), (getTime_dayNumber _ _ Ey), Ex, Ey.
      unfold msPerDay. simpl. lia.
    + intros x y [dx Ex] [dy Ey]. unfold SortCompare, compareDates, R.
      rewrite (getTime_dayNumber _ _ Ex), (getTime_dayNumber _ _ Ey), Ex, Ey.
      unfold msPerDay. simpl. lia.
Qed.

(** The partition by date holds for every list: one group per date that
    occurs, each group the transactions of its date in arrival order,
    and the groups together a rearrangement of the input. *)
Lemma groupByDate_groups (l : list Transaction) :
  NoDup (map fst (groupByDate l)) /\
  (forall d, d ∈ map fst (groupByDate l) <-> d ∈ dates l) /\
  (forall d ts, (d, ts) ∈ groupByDate l -> ts = on_date d l /\ ts <> []) /\
  concat (map snd (groupByDate l)) ≡ₚ l.
Proof.
  assert (Hk : forall d, d ∈ sortedDates l <-> d ∈ dates l).
  { intros d. rewrite sortedDates_perm. apply groupedTransactions_keys_elem. }
  assert (Hnd : NoDup (sortedDates l)).
  { rewrite sortedDates_perm. apply groupedTransactions_keys_NoDup. }
  rewrite groupByDate_dates. split; [exact Hnd|]. split; [exact Hk|]. split.
  - intros d ts Hin. rewrite groupByDate_on_date in Hin.
    apply list_elem_of_fmap in Hin as (d' & [= -> ->] & Hd').
    split; [reflexivity|].
    apply Hk, list_elem_of_fmap in Hd' as (t & -> & Ht).
    intros E. assert (Hin : t ∈ on_date (TxRow.date t) l).
    { apply list_elem_of_filter. by split. }
    rewrite E in Hin. by apply elem_of_nil in Hin.
  - rewrite groupByDate_on_date, map_map. simpl.
    apply concat_on_date; [exact Hnd|].
    intros t Ht. apply Hk, list_elem_of_fmap. by exists t.
Qed.

(** C3. On transactions dated by calendar dates, the grouping is an
    exact partition: one group per distinct date, every group holding
    the transactions of its date in the order in which they arrived, the
    groups together holding each input transaction once, and the groups
    in strictly descending date order whatever the input order. *)
Theorem groupByDate_partition (l : list Transaction) :
  Forall (fun t : Transaction => calendar_date (TxRow.date t)) l ->
  NoDup (map fst (groupByDate l)) /\
  (forall d, d ∈ map fst (groupByDate l) <-> d ∈ dates l) /\
  (forall d ts, (d, ts) ∈ groupByDate l -> ts = on_date d l /\ ts <> []) /\
  concat (map snd (groupByDate l)) ≡ₚ l /\
  StronglySorted (fun g1 g2 => later_date (fst g1) (fst g2)) (groupByDate l).
Proof.
  intros Hcal.
  destruct (groupByDate_groups l) as (H1 & H2 & H3 & H4).
  repeat (split; [assumption|]).
  rewrite groupByDate_on_date.
  apply (StronglySorted_map (fun d => (d, on_date d l))
           (fun g1 g2 => later_date (fst g1) (fst g2))).
  simpl. by apply sortedDates_sorted.
Qed.

Lemma sample_transactions_calendar :
  Forall (fun t : Transaction => calendar_date (TxRow.date t))
         (select_transactions sample_db "u").
Proof. repeat constructor; vm_compute; eexists; reflexivity. Qed.

Example sample_listing :
  map (fun t : Transaction => TxRow.id t) (select_transactions sample_db "u")
    = ["z"; "y"; "x"].
Proof. vm_compute. reflexivity. Qed.

Example scenario_A :
  map (fun t : Transaction => TxRow.id t)
      (applyFilters (select_transactions sample_db "u") all "2024-05") = ["y"; "x"] /\
  calculateTotals (applyFilters (select_transactions sample_db "u") all "2024-05")
    = {| total_income := 100000; total_expenses := 5000; balance := 95000 |}.
Proof. split; vm_compute; reflexivity. Qed.

Example scenario_B :
  map (fun t : Transaction => TxRow.id t)
      (applyFilters (select_transactions sample_db "u") (only expense) "") = ["z"; "x"] /\
  calculateTotals (applyFilters (select_transactions sample_db "u") (only expense) "")
    = {| total_income := 0; total_expenses := 8000; balance := -8000 |}.
Proof. split; vm_compute; reflexivity. Qed.

Example sample_groups :
  map (fun g : string * list Transaction =>
         (fst g, map (fun t : Transaction => TxRow.id t) (snd g)))
      (groupByDate (map (fun r => {| row := r; category := None |})
                        [sample_x; sample_z; sample_y; sample_x]))
    = [("2024-06-01", ["z"]); ("2024-05-02", ["y"]); ("2024-05-01", ["x"; "x"])].
Proof. vm_compute. reflexivity. Qed.

Lemma groupByDate_partition_witness :
  let l := select_transactions sample_db "u" in
  NoDup (map fst (groupByDate l)) /\
  (forall d, d ∈ map fst (groupByDate l) <-> d ∈ dates l) /\
  (forall d ts, (d, ts) ∈ groupByDate l -> ts = on_date d l /\ ts <> []) /\
  concat (map snd (groupByDate l)) ≡ₚ l /\
  StronglySorted (fun g1 g2 => later_date (fst g1) (fst g2)) (groupByDate l).
Proof.
  apply (groupByDate_partition (select_transactions sample_db "u")).
  repeat constructor; vm_compute; eexists; reflexivity.
Defined.

Example getTime_sample : getTime "2024-05-01" = Some 1714521600000.
Proof. vm_compute. reflexivity. Qed.

Example getTime_epoch : getTime "1970-01-01" = Some 0.
Proof. vm_compute. reflexivity. Qed.

(** C8. The empty view has all totals zero and no group: the list
    component shows its empty state. *)
Theorem empty_view :
  calculateTotals [] = {| total_income := 0; total_expenses := 0; balance := 0 |} /\
  groupByDate [] = [] /\
  TransactionList [] = EmptyState /\
  (forall F P, applyFilters [] F P = []).
Proof.
  repeat split.
  intros F P. rewrite applyFilters_filter. reflexivity.
Qed.

(** ** Loading the transactions *)

(** C9. A failed load leaves the transaction list as it was, in both
    variants of [loadTransactions]: a load either installs the data of
    the store or changes nothing, and ends with the list panel showing
    the view of the list it holds. *)
Theorem failed_load_keeps_transactions (st : Dashboard) :
  transactions (loadTransactions Failed st) = transactions st /\
  transactions (loadTransactions_fetch NetworkError st) = transactions st /\
  (forall json, transactions (loadTransactions_fetch (HttpResponse false json) st)
                = transactions st) /\
  transactions (loadTransactions_fetch (HttpResponse true None) st) = transactions st /\
  (forall reply, transactions (loadTransactions reply st)
                 = match reply with Data data => data | Failed => transactions st end) /\
  (forall outcome, transactions (loadTransactions_fetch outcome st)
                 = match fetchTransactions outcome with
                   | Some data => data
                   | None => transactions st
                   end) /\
  filteredTransactions (loadTransactions Failed st) = filteredTransactions st /\
  panel (loadTransactions Failed st) = Listing (TransactionList (filteredTransactions st)) /\
  panel (loadTransactions_fetch NetworkError st)
    = Listing (TransactionList (filteredTransactions st)).
Proof.
  repeat split.
  - intros reply. by destruct reply.
  - intros outcome. unfold loadTransactions_fetch.
    by destruct (fetchTransactions outcome).
Qed.

(** ** The order of the listing *)

Lemma StronglySorted_weaken {A : Type} (R R' : relation A) (l : list A) :
  (forall x y, x ∈ l -> y ∈ l -> R x y -> R' x y) ->
  StronglySorted R l -> StronglySorted R' l.
Proof.
  intros HR Hs. induction Hs as [|x l Hs IH Hx]; [constructor|].
  constructor.
  - apply IH. intros y z Hy Hz. apply HR; by right.
  - apply Forall_forall. intros y Hy. rewrite Forall_forall in Hx.
    apply HR; [by left|by right|auto].
Qed.

Lemma sort_order_date_created (rows : list TxRow.t) :
  Forall (fun r => calendar_date (TxRow.date r)) rows ->
  StronglySorted listed_before (sort order_date_created rows).
Proof.
  intros Hcal.
  pose (day := fun r : TxRow.t => default 0 (dayNumber (TxRow.date r))).
  pose (R := fun a b : TxRow.t =>
               day b < day a \/ (day a = day b /\ TxRow.created_at b <= TxRow.created_at a)).
  assert (HT : Transitive R) by (intros x y z; unfold R; lia).
  apply (StronglySorted_weaken R).
  - intros x y Hx Hy Rxy. rewrite sort_elem_of in Hx, Hy.
    rewrite Forall_forall in Hcal.
    destruct (Hcal x Hx) as [dx Ex], (Hcal y Hy) as [dy Ey].
    unfold listed_before. unfold R, day in Rxy. rewrite Ex, Ey in *. exact Rxy.
  - apply (sort_sorted order_date_created R
             (fun r => calendar_date (TxRow.date r))); [| |exact Hcal].
    + intros x y [dx Ex] [dy Ey]. unfold SortCompare, order_date_created, R, day.
      rewrite Ex, Ey. simpl. destruct (Z.eqb_spec dx dy); lia.
    + intros x y [dx Ex] [dy Ey]. unfold SortCompare, order_date_created, R, day.
      rewrite Ex, Ey. simpl. destruct (Z.eqb_spec dx dy); lia.
Qed.

(** C7. The listing of the owner's transactions is ordered by date
    descending, and within one date by creation time descending; it
    holds exactly the owner's rows, and a successful load installs it in
    that order. *)
Theorem select_transactions_ordered (db : Db) (uid : string) (st : Dashboard) :
  Forall (fun r => calendar_date (TxRow.date r)) (tbl_transactions db) ->
  StronglySorted (fun a b : Transaction => listed_before a b)
                 (select_transactions db uid) /\
  map row (select_transactions db uid)
    ≡ₚ filter (fun r => TxRow.user_id r = uid) (tbl_transactions db) /\
  transactions (loadTransactions (Data (select_transactions db uid)) st)
    = select_transactions db uid.
Proof.
  intros Hcal. unfold select_transactions. split; [|split].
  - apply (StronglySorted_map
             (fun r => {| row := r; category := embed_category db uid r |})
             (fun a b : Transaction => listed_before a b)).
    simpl. apply sort_order_date_created.
    apply Forall_forall. intros r Hr. apply list_elem_of_filter in Hr as [_ Hr].
    rewrite Forall_forall in Hcal. auto.
  - rewrite map_map. simpl. rewrite map_id. apply sort_perm.
  - reflexivity.
Qed.

Lemma select_transactions_ordered_witness :
  StronglySorted (fun a b : Transaction => listed_before a b)
                 (select_transactions sample_db "u") /\
  map row (select_transactions sample_db "u")
    ≡ₚ filter (fun r => TxRow.user_id r = "u") (tbl_transactions sample_db) /\
  transactions (loadTransactions (Data (select_transactions sample_db "u")) sample_dashboard)
    = select_transactions sample_db "u".
Proof.
  apply (select_transactions_ordered sample_db "u" sample_dashboard).
  repeat constructor; vm_compute; eexists; reflexivity.
Defined.

(** ** Deleting a category *)

(** The deletion of a category of the owner succeeds, keeps every row of
    [transactions] at its place, and changes only the rows that
    referenced the category: their foreign key becomes [NULL] and the
    trigger stamps their [updated_at]. *)
Lemma delete_category_rows (db : Db) (uid : string) (now : Z) (c : Category.t) :
  c ∈ tbl_categories db -> Category.user_id c = uid ->
  exists db',
    delete_category uid now (Category.id c) db = Some db' /\
    tbl_transactions db'
      = map (fun r => if decide (references (Category.id c) r)
                      then update_row now (set_category_id None) r
                      else r) (tbl_transactions db) /\
    tbl_categories db'
      = filter (fun c' => ~ (Category.id c' = Category.id c /\ Category.user_id c' = uid))
               (tbl_categories db).
Proof.
  intros Hc Hu. unfold delete_category.
  destruct (decide (Exists _ _)) as [_|Hn].
  - simpl. eexists. split; [reflexivity|]. split; reflexivity.
  - destruct Hn. apply Exists_exists. exists c. auto.
Qed.

(** C4, as the code has it. Deleting a category of the owner that [N]
    transactions reference does not fail and deletes no transaction:
    the table keeps its length and its row order, every row that did not
    reference the category is unchanged, and every row that did keeps
    its id, owner, amount, kind, description, date and creation time,
    has its category reference [NULL] and its [updated_at] set to the
    time of the deletion; no row references the category any more, and
    the reloaded listing shows the former referents without category. *)
Theorem delete_category_keeps_transactions (db : Db) (uid : string) (now : Z)
    (c : Category.t) :
  c ∈ tbl_categories db -> Category.user_id c = uid ->
  exists db',
    handleDelete true uid now (Category.id c) db = Some db' /\
    length (tbl_transactions db') = length (tbl_transactions db) /\
    (forall i r, tbl_transactions db !! i = Some r ->
       exists r', tbl_transactions db' !! i = Some r' /\
         if decide (references (Category.id c) r)
         then same_columns r r' /\ TxRow.category_id r' = None /\
              TxRow.updated_at r' = now
         else r' = r) /\
    Forall (fun r' => ~ references (Category.id c) r') (tbl_transactions db') /\
    (forall r, r ∈ tbl_transactions db -> references (Category.id c) r ->
       TxRow.user_id r = uid ->
       exists t : Transaction,
         t ∈ select_transactions db' uid /\ same_columns r t /\
         TxRow.category_id t = None /\ category t = None).
Proof.
  intros Hc Hu.
  destruct (delete_category_rows db uid now c Hc Hu) as (db' & Hdel & Hrows & Hcats).
  exists db'. simpl. split; [exact Hdel|]. rewrite Hrows.
  split; [by rewrite length_map|]. split; [|split].
  - intros i r Hi. eexists. rewrite list_lookup_fmap, Hi. simpl.
    split; [reflexivity|].
    destruct (decide (references (Category.id c) r)); [|reflexivity].
    by repeat split.
  - apply Forall_forall. intros r' Hr'.
    apply list_elem_of_fmap in Hr' as (r & -> & Hr).
    destruct (decide (references (Category.id c) r)) as [Href|Href]; [|exact Href].
    unfold references. simpl. discriminate.
  - intros r Hr Href Hown.
    exists {| row := update_row now (set_category_id None) r; category := None |}.
    split; [|by repeat split].
    unfold select_transactions. apply list_elem_of_fmap.
    exists (update_row now (set_category_id None) r). split; [reflexivity|].
    rewrite sort_elem_of, list_elem_of_filter. split; [exact Hown|].
    rewrite Hrows. apply list_elem_of_fmap. exists r.
    by destruct (decide (references (Category.id c) r)).
Qed.

Lemma delete_category_keeps_transactions_witness :
  exists db',
    handleDelete true "u" 20 (Category.id sample_food) sample_db = Some db' /\
    length (tbl_transactions db') = length (tbl_transactions sample_db) /\
    (forall i r, tbl_transactions sample_db !! i = Some r ->
       exists r', tbl_transactions db' !! i = Some r' /\
         if decide (references (Category.id sample_food) r)
         then same_columns r r' /\ TxRow.category_id r' = None /\
              TxRow.updated_at r' = 20
         else r' = r) /\
    Forall (fun r' => ~ references (Category.id sample_food) r') (tbl_transactions db') /\
    (forall r, r ∈ tbl_transactions sample_db -> references (Category.id sample_food) r ->
       TxRow.user_id r = "u" ->
       exists t : Transaction,
         t ∈ select_transactions db' "u" /\ same_columns r t /\
         TxRow.category_id t = None /\ category t = None).
Proof.
  apply (delete_category_keeps_transactions sample_db "u" 20 sample_food).
  - vm_compute. left.
  - reflexivity.
Defined.

(** Scenario D: after the deletion of ["c1"], the transaction ["x"] is
    still listed, with no category. *)
Example scenario_D :
  option_map (fun db' => map (fun t : Transaction =>
                                (TxRow.id t, TxRow.category_id t, category t))
                             (select_transactions db' "u"))
             (handleDelete true "u" 20 "c1" sample_db)
  = Some [("z", None, None);
          ("y", Some "c2", Some {| ref_name := "Salary"; ref_color := "#22c55e" |});
          ("x", None, None)].
Proof. vm_compute. reflexivity. Qed.

(** C4, as stated, fails on the [updated_at] column: the referencing row
    ["x"], last updated at time 10, is not present with only its
    category reference changed after a deletion at time 20; the row
    present in its place carries [updated_at = 20]. *)
Lemma delete_category_touches_updated_at :
  references "c1" sample_x /\
  exists db',
    handleDelete true "u" 20 "c1" sample_db = Some db' /\
    (set_category_id None sample_x ∉ tbl_transactions db') /\
    (update_updated_at_column 20 (set_category_id None sample_x) ∈ tbl_transactions db') /\
    Forall (fun r' => TxRow.id r' = TxRow.id sample_x ->
                      TxRow.updated_at r' <> TxRow.updated_at sample_x)
           (tbl_transactions db').
Proof.
  split; [reflexivity|]. eexists. split; [vm_compute; reflexivity|].
  split; [|split].
  - apply (bool_decide_unpack _). vm_compute. exact I.
  - apply (bool_decide_unpack _). vm_compute. exact I.
  - repeat constructor; vm_compute; congruence.
Qed.

(** With a foreign key declared without [ON DELETE SET NULL] the same
    deletion would be rejected, and with [CASCADE] it would delete the
    referencing row: the outcome rests on the declared action. *)
Example other_referential_actions :
  on_delete NoAction 20 "c1" (tbl_transactions sample_db) = None /\
  on_delete Cascade 20 "c1" (tbl_transactions sample_db) = Some [sample_y; sample_z].
Proof. split; vm_compute; reflexivity. Qed.

(** ** Seeding *)

Lemma select_category_ids_nil (db : Db) (uid : string) :
  select_category_ids db uid 1 = [] <->
  Forall (fun c => Category.user_id c <> uid) (tbl_categories db).
Proof.
  unfold select_category_ids.
  induction (tbl_categories db) as [|c cs IH]; simpl.
  - split; [constructor|reflexivity].
  - rewrite filter_cons. destruct (decide (Category.user_id c = uid)) as [E|E]; simpl.
    + split; [discriminate|]. intros H. apply Forall_cons in H as [H _]. done.
    + rewrite IH. split; [by constructor|]. intros H. by apply Forall_cons in H as [_ H].
Qed.

Lemma initializeDefaultCategories_starter (uid : string) (reply : Response (list string)) :
  initializeDefaultCategories (Some uid) reply =
    match reply with
    | Data (_ :: _) => []
    | _ => [starter uid]
    end.
Proof. destruct reply as [[|id ids]|]; reflexivity. Qed.

(** What the seeding issues, by the reply to its query.  With no
    signed-in user nothing is issued.  For an owner, when the query
    answers with no row (the owner has no category), exactly one insert
    is issued, of the ten starter rows: six of kind expense and four of
    kind income, each with its name, colour and icon and the owner's id;
    when the query answers with a row (the owner has a category), no
    insert is issued; when the query fails, the insert is issued as for
    an owner without categories. *)
Lemma seeding_by_reply (db : Db) (uid : string) :
  initializeDefaultCategories None (Data (select_category_ids db uid 1)) = [] /\
  initializeDefaultCategories (Some uid) (Data (select_category_ids db uid 1))
    = (if decide (Forall (fun c => Category.user_id c <> uid) (tbl_categories db))
       then [starter uid] else []) /\
  initializeDefaultCategories (Some uid) Failed = [starter uid] /\
  length (starter uid) = 10%nat /\
  length (filter (fun c => new_type c = expense) (starter uid)) = 6%nat /\
  length (filter (fun c => new_type c = income) (starter uid)) = 4%nat /\
  Forall (fun c => new_user_id c = uid) (starter uid) /\
  map (fun c => (new_name c, new_type c, new_color c, new_icon c)) (starter uid)
    = defaultCategories.
Proof.
  split; [reflexivity|]. split; [|repeat split].
  - rewrite initializeDefaultCategories_starter.
    destruct (decide _) as [Hnone|Hsome].
    + apply select_category_ids_nil in Hnone. by rewrite Hnone.
    + destruct (select_category_ids db uid 1) eqn:E; [|reflexivity].
      destruct Hsome. by apply select_category_ids_nil.
  - repeat constructor.
Qed.

(** C5. The code breaks the claim when the query for an existing
    category fails: the owner ["u"] has two categories, the store
    answers the query with a failure ([data] is [null]), and the guard
    [!existingCategories || ...] lets the insert of the starter set be
    issued, where the claim has no seeding insert for an owner with a
    category. *)
Lemma seeding_on_failed_query :
  Exists (fun c => Category.user_id c = "u") (tbl_categories sample_db) /\
  answers (select_category_ids sample_db "u" 1) Failed /\
  initializeDefaultCategories (Some "u") Failed = [starter "u"] /\
  initializeDefaultCategories (Some "u") Failed <> [].
Proof.
  split; [by left|]. split; [constructor|]. split; [reflexivity|discriminate].
Qed.

(** ** The transaction editor *)






(** With the query answered, the same switch leaves ["c1"] in the state
    [categoryId] while the form shows the empty placeholder, which the
    required select refuses. *)
Example switchKind_answered_shows_placeholder :
  let m' := switchKind income
              (Data (select_categories_of_type collate_bytes sample_db "u" income))
              sample_modal in
  categories m' = [sample_salary] /\
  categoryId m' = "c1" /\
  selectValue m' = "" /\
  selectValid m' = false.
Proof. vm_compute. repeat split. Qed.

(** The defaulting that the editor does perform: with nothing selected,
    the first candidate of the new kind becomes the selection. *)
Example switchKind_defaults_when_unselected :
  let m' := switchKind income
              (Data (select_categories_of_type collate_bytes sample_db "u" income))
              (setCategoryId "" sample_modal) in
  categoryId m' = "c2" /\ selectValue m' = "c2".
Proof. vm_compute. split; reflexivity. Qed.

(** * Further properties of the code *)

(** ** Filters and totals *)

(** X1. The two filters commute and are idempotent: filtering a view
    again, by other settings, gives the same view in either order, and
    filtering it again by the same settings changes nothing. *)
Theorem applyFilters_commute (T : list Transaction) (F F' : FilterType)
    (P P' : string) :
  applyFilters (applyFilters T F P) F' P' = applyFilters (applyFilters T F' P') F P /\
  applyFilters (applyFilters T F P) F P = applyFilters T F P.
Proof.
  rewrite !applyFilters_filter, !list_filter_filter.
  split; apply list_filter_iff; intros t; tauto.
Qed.

Lemma sum_of_kind_filter_other (k k' : Kind) (P : string) (T : list Transaction) :
  k <> k' -> sum_of_kind k (applyFilters T (only k') P) = 0.
Proof.
  intros Hk. rewrite applyFilters_filter.
  induction T as [|t T IH]; [reflexivity|].
  rewrite filter_cons. destruct (decide _) as [[Ht _]|_]; [|exact IH].
  simpl in *. destruct (decide (TxRow.type t = k)); [congruence|]. lia.
Qed.

Lemma sum_of_kind_filter_same (k : Kind) (P : string) (T : list Transaction) :
  sum_of_kind k (applyFilters T (only k) P) = sum_of_kind k (applyFilters T all P).
Proof.
  rewrite !applyFilters_filter.
  induction T as [|t T IH]; [reflexivity|].
  rewrite !filter_cons. simpl type_ok.
  repeat case_decide; simpl in *; repeat case_decide; try tauto; lia.
Qed.

(** X2. Under the filter "expense" the income total is 0 and the balance
    is minus the expenses; under the filter "income" the expenses are 0
    and the balance is the income.  Each of these totals is the one that
    the filter "all" shows for the same month. *)
Theorem totals_under_type_filter (T : list Transaction) (P : string) :
  let e := calculateTotals (applyFilters T (only expense) P) in
  let i := calculateTotals (applyFilters T (only income) P) in
  let a := calculateTotals (applyFilters T all P) in
  total_income e = 0 /\ balance e = - total_expenses e /\
  total_expenses i = 0 /\ balance i = total_income i /\
  total_expenses e = total_expenses a /\ total_income i = total_income a /\
  balance a = balance i + balance e.
Proof.
  rewrite !calculateTotals_sums. simpl.
  rewrite (sum_of_kind_filter_other income expense) by discriminate.
  rewrite (sum_of_kind_filter_other expense income) by discriminate.
  rewrite !sum_of_kind_filter_same. repeat split; lia.
Qed.

Lemma sum_of_kind_nonneg (k : Kind) (l : list Transaction) :
  Forall (fun t : Transaction => 0 < TxRow.amount t) l -> 0 <= sum_of_kind k l.
Proof.
  induction 1 as [|t l Ht Hl IH]; simpl; [lia|].
  destruct (decide (TxRow.type t = k)); lia.
Qed.

(** X3. On a view whose amounts are positive (the check of the column),
    both totals are non-negative, the balance lies between minus the
    expenses and the income, the magnitude shown on the balance card is
    at most income plus expenses, and both totals are zero only for the
    empty view. *)
Theorem totals_of_positive_amounts (l : list Transaction) :
  Forall (fun t : Transaction => 0 < TxRow.amount t) l ->
  0 <= total_income (calculateTotals l) /\
  0 <= total_expenses (calculateTotals l) /\
  - total_expenses (calculateTotals l) <= balance (calculateTotals l)
     <= total_income (calculateTotals l) /\
  snd (balanceDisplay (balance (calculateTotals l)))
     <= total_income (calculateTotals l) + total_expenses (calculateTotals l) /\
  (total_income (calculateTotals l) = 0 /\ total_expenses (calculateTotals l) = 0
   <-> l = []).
Proof.
  intros Hpos. rewrite calculateTotals_sums. simpl.
  pose proof (sum_of_kind_nonneg income l Hpos) as Hi.
  pose proof (sum_of_kind_nonneg expense l Hpos) as He.
  do 4 (split; [lia|]). split.
  - intros [H1 H2]. destruct Hpos as [|t l Ht Hl]; [reflexivity|]. exfalso.
    pose proof (sum_of_kind_nonneg income l Hl).
    pose proof (sum_of_kind_nonneg expense l Hl).
    simpl in H1, H2. destruct (TxRow.type t);
      repeat (destruct (decide _) as [?|?]; try congruence); lia.
  - intros ->. split; reflexivity.
Qed.

Lemma totals_of_positive_amounts_witness :
  let l := select_transactions sample_db "u" in
  0 <= total_income (calculateTotals l) /\
  0 <= total_expenses (calculateTotals l) /\
  - total_expenses (calculateTotals l) <= balance (calculateTotals l)
     <= total_income (calculateTotals l) /\
  snd (balanceDisplay (balance (calculateTotals l)))
     <= total_income (calculateTotals l) + total_expenses (calculateTotals l) /\
  (total_income (calculateTotals l) = 0 /\ total_expenses (calculateTotals l) = 0
   <-> l = []).
Proof.
  apply (totals_of_positive_amounts (select_transactions sample_db "u")).
  repeat constructor.
Defined.

Lemma prefix_cons (a b : ascii) (s1 s2 : string) :
  String.prefix (String a s1) (String b s2) = true <-> a = b /\ String.prefix s1 s2 = true.
Proof.
  simpl. destruct (ascii_dec a b) as [->|Hne]; [tauto|].
  split; [discriminate|]. intros [E _]. contradiction.
Qed.

(** The month filter on a calendar date compares the year and the month
    of the date with those of the selected month. *)
Lemma prefix_month (P s : string) (y m : Z) :
  parseMonth P = Some (y, m) -> calendar_date s ->
  String.prefix P s = true <-> exists d, parseDate s = Some (y, m, d).
Proof.
  intros HP [n Hs]. unfold dayNumber in Hs.
  destruct (parseDate s) as [[[y' m'] d']|] eqn:Es; [|discriminate]. clear Hs n.
  revert HP Es. unfold parseMonth, parseDate.
  do 7 (destruct P as [|? P]; [discriminate|]).
  destruct P; [|discriminate].
  do 10 (destruct s as [|? s]; [discriminate|]).
  destruct s; [|discriminate].
  repeat match goal with
         | |- context [Ascii.eqb ?x ?y] => destruct (Ascii.eqb_spec x y); [subst|discriminate]
         end.
  match goal with
  | |- context [String.prefix ?p ?q] => remember (String.prefix p q) as pre eqn:Epre
  end.
  simpl.
  repeat match goal with
         | |- context [match ?e with Some _ => _ | None => _ end] =>
             let E := fresh "E" in destruct e eqn:E; [|discriminate]
         end.
  intros [= -> ->] [= -> -> ->]. subst pre.
  rewrite !prefix_cons, prefix_empty.
  split.
  - intros (-> & -> & -> & -> & _ & -> & -> & _).
    exists d'. repeat f_equal; congruence.
  - intros [d [= Hy Hm Hd]]. subst.
    repeat match goal with
         | H1 : number4 _ _ _ _ = Some ?x, H2 : number4 _ _ _ _ = Some ?x |- _ =>
             destruct (number4_inj _ _ _ _ _ _ _ _ _ H1 H2) as (-> & -> & -> & ->);
             clear H1
         | H1 : number2 _ _ = Some ?x, H2 : number2 _ _ = Some ?x |- _ =>
             destruct (number2_inj _ _ _ _ _ H1 H2) as (-> & ->); clear H1
         end.
    tauto.
Qed.

(** X6. For a selected month [YYYY-MM] and transactions dated by
    calendar dates, the filtered view holds exactly the transactions of
    the input that pass the type filter and whose date lies in that
    year and month. *)
Theorem month_filter_is_calendar_month (T : list Transaction) (F : FilterType)
    (P : string) (y m : Z) :
  parseMonth P = Some (y, m) ->
  Forall (fun t : Transaction => calendar_date (TxRow.date t)) T ->
  forall t : Transaction,
    t ∈ applyFilters T F P <->
    t ∈ T /\ type_ok F t /\ exists d, parseDate (TxRow.date t) = Some (y, m, d).
Proof.
  intros HP Hcal t. rewrite applyFilters_filter, list_elem_of_filter.
  unfold month_ok. rewrite Forall_forall in Hcal. split.
  - intros [[HF Hm] Ht]. repeat split; try done.
    by apply (prefix_month P); auto.
  - intros (Ht & HF & Hd). repeat split; try done.
    by apply (prefix_month P _ y m); auto.
Qed.

Lemma month_filter_is_calendar_month_witness :
  let t := {| row := sample_y;
              category := Some {| ref_name := "Salary"; ref_color := "#22c55e" |} |} in
  t ∈ applyFilters (select_transactions sample_db "u") all "2024-05" <->
  t ∈ select_transactions sample_db "u" /\ type_ok all t /\
  exists d, parseDate (TxRow.date t) = Some (2024, 5, d).
Proof.
  apply (month_filter_is_calendar_month (select_transactions sample_db "u") all
           "2024-05" 2024 5).
  - reflexivity.
  - repeat constructor; vm_compute; eexists; reflexivity.
Defined.

(** ** The stable sort, filters and maps *)

Lemma sort_map {A B : Type} (f : A -> B) (cmpA : A -> A -> option Z)
    (cmpB : B -> B -> option Z) (l : list A) :
  (forall x y, cmpB (f x) (f y) = cmpA x y) ->
  sort cmpB (map f l) = map f (sort cmpA l).
Proof.
  intros Hc.
  assert (Hins : forall x s, insert_sorted cmpB (f x) (map f s)
                             = map f (insert_sorted cmpA x s)).
  { intros x s. induction s as [|y s IH]; simpl; [reflexivity|].
    unfold SortCompare. rewrite Hc.
    destruct (_ <=? 0); simpl; [reflexivity|]. by rewrite <- IH. }
  induction l as [|x l IH]; simpl; [reflexivity|]. by rewrite IH, Hins.
Qed.

Section SortFilter.
Context {A : Type} (comparefn : A -> A -> option Z).
Context (R : relation A) (dom : A -> Prop).
Context `{!Transitive R}.
Hypothesis compare_iff :
  forall x y, dom x -> dom y -> (SortCompare comparefn x y <= 0 <-> R x y).
Hypothesis R_total : forall x y, dom x -> dom y -> R x y \/ R y x.
Context (P : A -> Prop) `{!forall x, Decision (P x)}.

Lemma sort_sorted_total (l : list A) :
  Forall dom l -> StronglySorted R (sort comparefn l).
Proof.
  apply (sort_sorted comparefn R dom).
  - intros x y Hx Hy. by apply compare_iff.
  - intros x y Hx Hy Hgt. destruct (R_total x y Hx Hy) as [Hxy|Hyx]; [|exact Hyx].
    apply compare_iff in Hxy; [lia|done|done].
Qed.

Lemma insert_sorted_filter_out (x : A) (s : list A) :
  ~ P x -> filter P (insert_sorted comparefn x s) = filter P s.
Proof.
  intros Hx. induction s as [|y s IH]; simpl.
  - rewrite filter_cons. by destruct (decide (P x)).
  - destruct (_ <=? 0).
    + rewrite filter_cons. by destruct (decide (P x)).
    + rewrite !filter_cons. destruct (decide (P y)); by rewrite IH.
Qed.

Lemma insert_sorted_filter_in (x : A) (s : list A) :
  P x -> dom x -> Forall dom s -> StronglySorted R s ->
  insert_sorted comparefn x (filter P s) = filter P (insert_sorted comparefn x s).
Proof.
  intros HPx Hx Hs Hsorted.
  induction Hsorted as [|y s Hsorted IH Hy]; simpl.
  - rewrite filter_cons. by destruct (decide (P x)).
  - apply Forall_cons in Hs as [Hdy Hs].
    destruct (Z.leb_spec (SortCompare comparefn x y) 0) as [Hle|Hgt].
    + rewrite !(filter_cons _ x). destruct (decide (P x)); [|done].
      rewrite filter_cons. destruct (decide (P y)) as [HPy|HPy].
      * simpl. destruct (Z.leb_spec (SortCompare comparefn x y) 0); [reflexivity|lia].
      * assert (Rxy : R x y) by (by apply compare_iff).
        clear IH. induction s as [|z s IHs]; [reflexivity|].
        apply Forall_cons in Hs as [Hdz Hs]. apply Forall_cons in Hy as [Ryz Hy].
        apply StronglySorted_inv in Hsorted as [Hsorted _].
        rewrite filter_cons. destruct (decide (P z)); [|by apply IHs].
        simpl. assert (Rxz : R x z) by (by trans y).
        apply compare_iff in Rxz; [|done|done].
        destruct (Z.leb_spec (SortCompare comparefn x z) 0); [reflexivity|lia].
    + rewrite !filter_cons. destruct (decide (P y)).
      * simpl. destruct (Z.leb_spec (SortCompare comparefn x y) 0); [lia|].
        by rewrite IH.
      * by apply IH.
Qed.

Lemma sort_filter (l : list A) :
  Forall dom l -> sort comparefn (filter P l) = filter P (sort comparefn l).
Proof.
  induction l as [|x l IH]; intros Hl; [reflexivity|].
  apply Forall_cons in Hl as [Hx Hl].
  rewrite filter_cons. simpl. destruct (decide (P x)) as [HPx|HPx].
  - simpl. rewrite IH by done. apply insert_sorted_filter_in; [done|done| |].
    + apply Forall_forall. intros z Hz. rewrite sort_elem_of in Hz.
      rewrite Forall_forall in Hl. auto.
    + by apply sort_sorted_total.
  - rewrite insert_sorted_filter_out by done. by apply IH.
Qed.
End SortFilter.

(** The comparator of the listing decides a total preorder on the rows
    that carry calendar dates. *)
Lemma sort_order_date_created_filter (P : TxRow.t -> Prop)
    `{!forall r, Decision (P r)} (rows : list TxRow.t) :
  Forall (fun r => calendar_date (TxRow.date r)) rows ->
  sort order_date_created (filter P rows) = filter P (sort order_date_created rows).
Proof.
  pose (day := fun r : TxRow.t => default 0 (dayNumber (TxRow.date r))).
  pose (R := fun a b : TxRow.t =>
               day b < day a \/ (day a = day b /\ TxRow.created_at b <= TxRow.created_at a)).
  assert (HT : Transitive R) by (intros x y z; unfold R; lia).
  apply (sort_filter order_date_created R (fun r => calendar_date (TxRow.date r))).
  - intros x y [dx Ex] [dy Ey]. unfold SortCompare, order_date_created, R, day.
    rewrite Ex, Ey. simpl. destruct (Z.eqb_spec dx dy); lia.
  - intros x y _ _. unfold R. lia.
Qed.

(** ** The constraints of the schema as an invariant *)

Lemma fk_ok_same_ids (db db' : Db) (c : option string) :
  map Category.id (tbl_categories db') = map Category.id (tbl_categories db) ->
  fk_ok db c -> fk_ok db' c.
Proof. intros E. destruct c; simpl; [|done]. by rewrite E. Qed.

Lemma rows_ok_same_ids (db db' : Db) (rows : list TxRow.t) :
  map Category.id (tbl_categories db') = map Category.id (tbl_categories db) ->
  Forall (fun r => amount_ok (TxRow.amount r) /\ calendar_date (TxRow.date r) /\
                   fk_ok db (TxRow.category_id r)) rows ->
  Forall (fun r => amount_ok (TxRow.amount r) /\ calendar_date (TxRow.date r) /\
                   fk_ok db' (TxRow.category_id r)) rows.
Proof.
  intros E Hrows. eapply Forall_impl; [exact Hrows|].
  intros r (Ha & Hd & Hfk). split; [exact Ha|]. split; [exact Hd|].
  by apply (fk_ok_same_ids db).
Qed.

Lemma Forall_filter_keep {A : Type} (P Q : A -> Prop) `{!forall x, Decision (P x)}
    (l : list A) :
  Forall Q l -> Forall Q (filter P l).
Proof.
  rewrite !Forall_forall. intros HQ x Hx.
  apply list_elem_of_filter in Hx as [_ Hx]. auto.
Qed.

Lemma NoDup_map_filter {A B : Type} (f : A -> B) (P : A -> Prop)
    `{!forall x, Decision (P x)} (l : list A) :
  NoDup (map f l) -> NoDup (map f (filter P l)).
Proof.
  intros Hnd. apply (sublist_NoDup _ (map f l)); [exact Hnd|].
  apply fmap_sublist, sublist_filter.
Qed.

Lemma store_ok_empty : store_ok empty_db.
Proof. repeat split; constructor. Qed.

Lemma store_ok_insert_transaction (uid : string) (now : Z) (new_id : string)
    (d : TransactionData) (db db' : Db) :
  store_ok db -> insert_transaction uid now new_id d db = Some db' -> store_ok db'.
Proof.
  intros (Hrows & Hids & Hcats). unfold insert_transaction.
  destruct (decide _) as [[(Hu & Ha & Hfk & Hd) Hfresh]|]; [|discriminate].
  intros [= <-]. repeat split; simpl.
  - apply Forall_app. split; [by apply (rows_ok_same_ids db)|].
    constructor; [by split|constructor].
  - rewrite map_app. simpl. apply NoDup_app. split; [exact Hids|]. split.
    + intros x Hx Hx'. apply list_elem_of_singleton in Hx'. by subst.
    + apply NoDup_singleton.
  - exact Hcats.
Qed.

Lemma store_ok_update_transaction (uid : string) (now : Z) (tid : string)
    (d : TransactionData) (db db' : Db) :
  store_ok db -> update_transaction uid now tid d db = Some db' -> store_ok db'.
Proof.
  intros (Hrows & Hids & Hcats). unfold update_transaction.
  destruct (decide (Exists _ _)) as [_|_]; [|by intros [= <-]].
  destruct (decide _) as [(Hu & Ha & Hfk & Hd)|]; [|discriminate].
  intros [= <-]. repeat split; simpl.
  - apply Forall_fmap, Forall_forall. intros r Hr. rewrite Forall_forall in Hrows.
    simpl. destruct (decide _); [by split|]. by apply (Hrows r).
  - rewrite map_map.
    erewrite map_ext; [exact Hids|]. intros r. simpl. by destruct (decide _).
  - exact Hcats.
Qed.

Lemma store_ok_delete_transaction (uid tid : string) (db : Db) :
  store_ok db -> store_ok (delete_transaction uid tid db).
Proof.
  intros (Hrows & Hids & Hcats). repeat split; simpl.
  - apply Forall_filter_keep. by apply (rows_ok_same_ids db).
  - by apply NoDup_map_filter.
  - exact Hcats.
Qed.

Lemma new_category_ids (now : Z) (uuid : nat -> string) (rows : list NewCategory)
    (n : nat) :
  map Category.id (zip_with (fun id c => new_category_row id now c)
                            (map uuid (seq n (length rows))) rows)
    = map uuid (seq n (length rows)).
Proof.
  revert n. induction rows as [|c rows IH]; intros n; simpl; [reflexivity|].
  f_equal. apply IH.
Qed.

Lemma store_ok_insert_categories (uid : string) (now : Z) (uuid : nat -> string)
    (rows : list NewCategory) (db db' : Db) :
  store_ok db -> insert_categories uid now uuid rows db = Some db' -> store_ok db'.
Proof.
  intros (Hrows & Hids & Hcats). unfold insert_categories.
  destruct (decide _) as [[Hown Hnd]|]; [|discriminate].
  intros [= <-]. repeat split; simpl.
  - eapply Forall_impl; [exact Hrows|]. intros r (Ha & Hd & Hfk).
    split; [exact Ha|]. split; [exact Hd|].
    destruct (TxRow.category_id r) as [c|]; simpl in *; [|done].
    rewrite map_app. apply elem_of_app. by left.
  - exact Hids.
  - by rewrite map_app, new_category_ids.
Qed.

Lemma update_category_ids (uid cid n : string) (k : Kind) (col : string) (db : Db) :
  map Category.id (tbl_categories (update_category uid cid n k col db))
    = map Category.id (tbl_categories db).
Proof.
  simpl. rewrite map_map. apply map_ext. intros c. by destruct (decide _).
Qed.

Lemma store_ok_update_category (uid cid n : string) (k : Kind) (col : string) (db : Db) :
  store_ok db -> store_ok (update_category uid cid n k col db).
Proof.
  intros (Hrows & Hids & Hcats). repeat split.
  - apply (rows_ok_same_ids db); [|exact Hrows]. apply update_category_ids.
  - exact Hids.
  - by rewrite update_category_ids.
Qed.

Lemma store_ok_delete_category (uid : string) (now : Z) (cid : string) (db db' : Db) :
  store_ok db -> delete_category uid now cid db = Some db' -> store_ok db'.
Proof.
  intros (Hrows & Hids & Hcats). unfold delete_category.
  destruct (decide (Exists _ _)) as [_|_]; [|by intros [= <-]].
  simpl. intros [= <-]. repeat split; simpl.
  - apply Forall_fmap, Forall_forall. intros r Hr. rewrite Forall_forall in Hrows.
    destruct (Hrows r Hr) as (Ha & Hd & Hfk). simpl.
    destruct (decide (references cid r)) as [Href|Href]; [by split|].
    split; [exact Ha|]. split; [exact Hd|].
    destruct (TxRow.category_id r) as [c|] eqn:Ec; simpl in *; [|done].
    apply list_elem_of_fmap in Hfk as (cat & -> & Hcat).
    apply list_elem_of_fmap. exists cat. split; [reflexivity|].
    apply list_elem_of_filter. split; [|exact Hcat].
    intros [E _]. apply Href. unfold references. by rewrite Ec, E.
  - rewrite map_map.
    erewrite map_ext; [exact Hids|]. intros r. simpl. by destruct (decide _).
  - by apply NoDup_map_filter.
Qed.

Lemma store_ok_execute (s : Statement) (db : Db) :
  store_ok db -> store_ok (execute s db).
Proof.
  intros Hok. destruct s; simpl.
  - destruct (insert_transaction _ _ _ _ _) eqn:E; simpl; [|done].
    by eapply store_ok_insert_transaction.
  - destruct (update_transaction _ _ _ _ _) eqn:E; simpl; [|done].
    by eapply store_ok_update_transaction.
  - by apply store_ok_delete_transaction.
  - destruct (insert_categories _ _ _ _ _) eqn:E; simpl; [|done].
    by eapply store_ok_insert_categories.
  - by apply store_ok_update_category.
  - destruct (delete_category _ _ _ _) eqn:E; simpl; [|done].
    by eapply store_ok_delete_category.
Qed.

Lemma history_keeps_store_ok (l : list Statement) (db : Db) :
  store_ok db -> store_ok (history l db).
Proof.
  revert db. induction l as [|s l IH]; intros db Hok; [exact Hok|].
  simpl. apply IH. by apply store_ok_execute.
Qed.

(** X7. The statements of the components keep the constraints of the
    schema: from a store whose amounts are positive and within
    [numeric(10,2)], whose dates are calendar dates, whose category
    references point at existing categories and whose ids are unique,
    any history of inserts, updates and deletes of transactions and
    categories, accepted or rejected, leads to such a store. *)
Theorem store_ok_history (l : list Statement) (db : Db) :
  store_ok db -> store_ok (history l db).
Proof. apply history_keeps_store_ok. Qed.

Lemma store_ok_history_witness :
  store_ok
    (history [ InsertCategories "u" 1 (fun _ => "c1")
                 [ {| new_name := "Food"; new_type := expense; new_color := "#ef4444";
                      new_icon := "circle"; new_user_id := "u" |} ];
               InsertTransaction "u" 2 "x"
                 {| data_user_id := "u"; data_amount := 5000; data_type := expense;
                    data_description := "lunch"; data_category_id := Some "c1";
                    data_date := "2024-05-01" |};
               DeleteCategory "u" 3 "c1" ]
             empty_db).
Proof.
  apply (store_ok_history _ empty_db). repeat split; constructor.
Defined.

(** X8. In every store reached from the empty one by statements of the
    components, the listing of any owner is ordered by date descending
    and then creation time descending, every listed transaction has a
    positive amount and a calendar date, and no two listed transactions
    share an id. *)
Theorem reachable_listing (l : list Statement) (uid : string) :
  let listing := select_transactions (history l empty_db) uid in
  StronglySorted (fun a b : Transaction => listed_before a b) listing /\
  Forall (fun t : Transaction =>
            0 < TxRow.amount t /\ calendar_date (TxRow.date t)) listing /\
  NoDup (map (fun t : Transaction => TxRow.id t) listing).
Proof.
  simpl.
  destruct (history_keeps_store_ok l empty_db store_ok_empty) as (Hrows & Hids & _).
  set (db := history l empty_db) in *.
  assert (Hcal : Forall (fun r => calendar_date (TxRow.date r))
                        (filter (fun r => TxRow.user_id r = uid) (tbl_transactions db))).
  { apply Forall_filter_keep. eapply Forall_impl; [exact Hrows|]. by intros r (_ & H & _). }
  unfold select_transactions. split; [|split].
  - apply (StronglySorted_map
             (fun r => {| row := r; category := embed_category db uid r |})
             (fun a b : Transaction => listed_before a b)).
    simpl. by apply sort_order_date_created.
  - apply Forall_fmap, Forall_forall. intros r Hr. simpl.
    rewrite sort_elem_of, list_elem_of_filter in Hr. destruct Hr as [_ Hr].
    rewrite Forall_forall in Hrows. destruct (Hrows r Hr) as ((Ha & _) & Hd & _).
    by split.
  - rewrite map_map. simpl.
    rewrite (sort_perm order_date_created). by apply NoDup_map_filter.
Qed.

(** ** Deleting a transaction *)

Lemma filter_all_true_in {A : Type} (P : A -> Prop) `{!forall x, Decision (P x)}
    (l : list A) :
  (forall x, x ∈ l -> P x) -> filter P l = l.
Proof.
  intros HP. induction l as [|x l IH]; [reflexivity|].
  rewrite filter_cons. destruct (decide (P x)) as [_|Hn].
  - f_equal. apply IH. intros y Hy. apply HP. by right.
  - destruct Hn. apply HP. left.
Qed.

Lemma filter_id_map_row (tid : string) (g : TxRow.t -> Transaction) (l : list TxRow.t) :
  (forall r, row (g r) = r) ->
  filter (fun t : Transaction => TxRow.id t <> tid) (map g l)
    = map g (filter (fun r => TxRow.id r <> tid) l).
Proof.
  intros Hg. induction l as [|r l IH]; [reflexivity|].
  simpl. rewrite !filter_cons, Hg.
  destruct (decide (TxRow.id r <> tid)); simpl; by rewrite IH.
Qed.

Lemma select_transactions_delete_transaction (db : Db) (uid tid : string) :
  Forall (fun r => calendar_date (TxRow.date r)) (tbl_transactions db) ->
  select_transactions (delete_transaction uid tid db) uid
    = filter (fun t : Transaction => TxRow.id t <> tid) (select_transactions db uid).
Proof.
  intros Hcal. unfold select_transactions. symmetry.
  rewrite filter_id_map_row by done.
  rewrite <- sort_order_date_created_filter by (by apply Forall_filter_keep).
  simpl tbl_transactions. rewrite !list_filter_filter.
  assert (E : filter (fun r => TxRow.id r <> tid /\ TxRow.user_id r = uid)
                     (tbl_transactions db)
              = filter (fun r => TxRow.user_id r = uid /\
                               ~ (TxRow.id r = tid /\ TxRow.user_id r = uid))
                       (tbl_transactions db)).
  { apply list_filter_iff. intros r. tauto. }
  rewrite E. reflexivity.
Qed.

(** X9. After a confirmed deletion and the reload, the dashboard holds
    the former listing without the transaction of that id, the others in
    their former order; the categories and the transactions of other
    owners are untouched.  Without the confirmation nothing changes. *)
Theorem handleDeleteTransaction_listing (db : Db) (uid tid : string) (st : Dashboard) :
  Forall (fun r => calendar_date (TxRow.date r)) (tbl_transactions db) ->
  let db' := delete_transaction uid tid db in
  let after := handleDeleteTransaction true uid tid
                 (Data (select_transactions db' uid)) db st in
  fst after = db' /\
  transactions (snd after)
    = filter (fun t : Transaction => TxRow.id t <> tid) (select_transactions db uid) /\
  tbl_categories db' = tbl_categories db /\
  filter (fun r => TxRow.user_id r <> uid) (tbl_transactions db')
    = filter (fun r => TxRow.user_id r <> uid) (tbl_transactions db) /\
  (forall reply, handleDeleteTransaction false uid tid reply db st = (db, st)).
Proof.
  intros Hcal db' after. subst after db'. simpl.
  split; [reflexivity|]. split; [by apply select_transactions_delete_transaction|].
  split; [reflexivity|]. split; [|reflexivity].
  rewrite list_filter_filter. apply list_filter_iff. intros r. tauto.
Qed.

Lemma handleDeleteTransaction_listing_witness :
  let db' := delete_transaction "u" "y" sample_db in
  let after := handleDeleteTransaction true "u" "y"
                 (Data (select_transactions db' "u")) sample_db sample_dashboard in
  fst after = db' /\
  transactions (snd after)
    = filter (fun t : Transaction => TxRow.id t <> "y") (select_transactions sample_db "u") /\
  tbl_categories db' = tbl_categories sample_db /\
  filter (fun r => TxRow.user_id r <> "u") (tbl_transactions db')
    = filter (fun r => TxRow.user_id r <> "u") (tbl_transactions sample_db) /\
  (forall reply, handleDeleteTransaction false "u" "y" reply sample_db sample_dashboard
                 = (sample_db, sample_dashboard)).
Proof.
  apply (handleDeleteTransaction_listing sample_db "u" "y" sample_dashboard).
  repeat constructor; vm_compute; eexists; reflexivity.
Defined.

(** ** Deleting a category, continued *)

Lemma delete_category_Some (uid : string) (now : Z) (cid : string) (db : Db) :
  delete_category uid now cid db =
    Some (if decide (Exists (fun c => Category.id c = cid /\ Category.user_id c = uid)
                            (tbl_categories db))
          then {| tbl_categories :=
                    filter (fun c => ~ (Category.id c = cid /\ Category.user_id c = uid))
                           (tbl_categories db);
                  tbl_transactions :=
                    map (fun r => if decide (references cid r)
                                  then update_row now (set_category_id None) r
                                  else r) (tbl_transactions db) |}
          else db).
Proof. unfold delete_category. by destruct (decide _). Qed.

(** X11. Deleting a category is idempotent: issuing the same deletion a
    second time, at any later time, leaves the store exactly as the
    first deletion left it (no row is stamped again). *)
Theorem delete_category_idempotent (uid : string) (now now' : Z) (cid : string)
    (db : Db) :
  execute (DeleteCategory uid now' cid) (execute (DeleteCategory uid now cid) db)
    = execute (DeleteCategory uid now cid) db.
Proof.
  simpl. rewrite (delete_category_Some uid now cid db). simpl.
  rewrite delete_category_Some. simpl.
  destruct (decide (Exists _ (tbl_categories db))) as [Hex|Hnex]; simpl.
  - destruct (decide (Exists _ _)) as [Hex'|_]; [|reflexivity].
    exfalso. apply Exists_exists in Hex' as (c & Hc & Htarget).
    apply list_elem_of_filter in Hc as [Hn _]. contradiction.
  - destruct (decide (Exists _ _)); [contradiction|reflexivity].
Qed.

(** X12. Row-level security of the deletion: when the user owns no
    category of that id, the statement changes nothing, whoever else
    owns one and whatever references it; and in every case the
    categories of the other owners stay as they are. *)
Theorem delete_category_isolation (uid : string) (now : Z) (cid : string) (db : Db) :
  Forall (fun c => ~ (Category.id c = cid /\ Category.user_id c = uid))
         (tbl_categories db) ->
  execute (DeleteCategory uid now cid) db = db /\
  (forall uid' now' cid',
     filter (fun c => Category.user_id c <> uid')
            (tbl_categories (execute (DeleteCategory uid' now' cid') db))
     = filter (fun c => Category.user_id c <> uid') (tbl_categories db)).
Proof.
  intros Hnone. split.
  - simpl. rewrite delete_category_Some. simpl.
    destruct (decide (Exists _ _)) as [Hex|_]; [|reflexivity].
    exfalso. apply Exists_exists in Hex as (c & Hc & Htarget).
    rewrite Forall_forall in Hnone. by apply (Hnone c).
  - intros uid' now' cid'. simpl. rewrite delete_category_Some. simpl.
    destruct (decide (Exists _ _)) as [_|_]; [|reflexivity]. simpl.
    rewrite list_filter_filter. apply list_filter_iff. intros c. tauto.
Qed.

Lemma delete_category_isolation_witness :
  execute (DeleteCategory "v" 20 "c1") sample_db = sample_db /\
  (forall uid' now' cid',
     filter (fun c => Category.user_id c <> uid')
            (tbl_categories (execute (DeleteCategory uid' now' cid') sample_db))
     = filter (fun c => Category.user_id c <> uid') (tbl_categories sample_db)).
Proof.
  apply (delete_category_isolation "v" 20 "c1" sample_db).
  repeat constructor; intros [_ E]; discriminate.
Defined.

Lemma filter_user_map (uid : string) (g : TxRow.t -> TxRow.t) (l : list TxRow.t) :
  (forall r, TxRow.user_id (g r) = TxRow.user_id r) ->
  filter (fun r => TxRow.user_id r = uid) (map g l)
    = map g (filter (fun r => TxRow.user_id r = uid) l).
Proof.
  intros Hg. induction l as [|r l IH]; [reflexivity|].
  simpl. rewrite !filter_cons, Hg.
  destruct (decide (TxRow.user_id r = uid)); simpl; by rewrite IH.
Qed.

(** Two presentations of the same rows that agree on kind, amount and
    date have the same totals under every filter. *)
Lemma sum_of_kind_presentation (k : Kind) (F : FilterType) (P : string)
    (h1 h2 : TxRow.t -> Transaction) (l : list TxRow.t) :
  (forall r, TxRow.type (h1 r) = TxRow.type (h2 r) /\
             TxRow.amount (h1 r) = TxRow.amount (h2 r) /\
             TxRow.date (h1 r) = TxRow.date (h2 r)) ->
  sum_of_kind k (applyFilters (map h1 l) F P)
    = sum_of_kind k (applyFilters (map h2 l) F P).
Proof.
  intros Hh. rewrite !applyFilters_filter.
  induction l as [|r l IH]; [reflexivity|].
  simpl. rewrite !filter_cons. destruct (Hh r) as (Ht & Ha & Hd).
  assert (Hok : type_ok F (h1 r) /\ month_ok P (h1 r)
                <-> type_ok F (h2 r) /\ month_ok P (h2 r)).
  { unfold month_ok. rewrite Hd. destruct F; simpl; [tauto|]. by rewrite Ht. }
  destruct (decide (type_ok F (h1 r) /\ _)), (decide (type_ok F (h2 r) /\ _));
    try tauto; simpl; rewrite ?Ht, ?Ha, IH; reflexivity.
Qed.

(** X13. Deleting a category changes no total: for every owner and every
    setting of the filters, income, expenses and balance of the reloaded
    listing are those of the listing before, and the listing shows the
    same transactions (by id) in the same order. *)
Theorem delete_category_keeps_totals (db : Db) (uid uid' : string) (now : Z)
    (cid : string) (F : FilterType) (P : string) :
  let db' := execute (DeleteCategory uid now cid) db in
  calculateTotals (applyFilters (select_transactions db' uid') F P)
    = calculateTotals (applyFilters (select_transactions db uid') F P) /\
  map (fun t : Transaction => TxRow.id t) (select_transactions db' uid')
    = map (fun t : Transaction => TxRow.id t) (select_transactions db uid').
Proof.
  simpl. rewrite delete_category_Some. simpl.
  destruct (decide (Exists _ _)) as [_|_]; [|by split].
  pose (g := fun r => if decide (references cid r)
                      then update_row now (set_category_id None) r else r).
  assert (Hg : forall r, TxRow.id (g r) = TxRow.id r /\
                         TxRow.user_id (g r) = TxRow.user_id r /\
                         TxRow.type (g r) = TxRow.type r /\
                         TxRow.amount (g r) = TxRow.amount r /\
                         TxRow.date (g r) = TxRow.date r /\
                         TxRow.created_at (g r) = TxRow.created_at r).
  { intros r. unfold g. by destruct (decide (references cid r)). }
  unfold select_transactions. simpl tbl_transactions. fold g.
  rewrite (filter_user_map uid' g) by (intros r; apply Hg).
  rewrite (sort_map g order_date_created order_date_created).
  2:{ intros x y. unfold order_date_created.
      destruct (Hg x) as (_ & _ & _ & _ & -> & ->).
      by destruct (Hg y) as (_ & _ & _ & _ & -> & ->). }
  rewrite !map_map. split.
  - rewrite !calculateTotals_sums. f_equal.
    + apply sum_of_kind_presentation. intros r. simpl. destruct (Hg r) as (_ & _ & ? & ? & ? & _). done.
    + apply sum_of_kind_presentation. intros r. simpl. destruct (Hg r) as (_ & _ & ? & ? & ? & _). done.
    + f_equal; apply sum_of_kind_presentation; intros r; simpl;
        destruct (Hg r) as (_ & _ & ? & ? & ? & _); done.
  - apply map_ext. intros r. simpl. apply Hg.
Qed.

(** ** The category manager *)

(** X14. The two lists of the category manager split the loaded
    categories: every category is shown in exactly one of them, the
    expense list holds the expense categories and the income list the
    income categories, each in the loaded order, and the two counts in
    the headings add up to the number of categories. *)
Theorem manager_lists_partition (st : CategoryManager.State) :
  (CategoryManager.expenseCategories st ++ CategoryManager.incomeCategories st)%list
    ≡ₚ CategoryManager.categories st /\
  (length (CategoryManager.expenseCategories st)
   + length (CategoryManager.incomeCategories st)
   = length (CategoryManager.categories st))%nat /\
  (forall c, c ∈ CategoryManager.expenseCategories st <->
             c ∈ CategoryManager.categories st /\ Category.type c = expense) /\
  (forall c, c ∈ CategoryManager.incomeCategories st <->
             c ∈ CategoryManager.categories st /\ Category.type c = income) /\
  sublist (CategoryManager.expenseCategories st) (CategoryManager.categories st) /\
  sublist (CategoryManager.incomeCategories st) (CategoryManager.categories st).
Proof.
  unfold CategoryManager.expenseCategories, CategoryManager.incomeCategories.
  assert (Hperm : (filter (fun c => Category.type c = expense) (CategoryManager.categories st)
                   ++ filter (fun c => Category.type c = income)
                        (CategoryManager.categories st))%list
                  ≡ₚ CategoryManager.categories st).
  { induction (CategoryManager.categories st) as [|c l IH]; [reflexivity|].
    rewrite !filter_cons. destruct (Category.type c) eqn:E.
    - destruct (decide (expense = expense)); [|done].
      destruct (decide (expense = income)); [discriminate|]. simpl. by constructor.
    - destruct (decide (income = expense)); [discriminate|].
      destruct (decide (income = income)); [|done].
      rewrite <- Permutation_middle. by constructor. }
  split; [exact Hperm|].
  split; [by rewrite <- (Permutation_length Hperm), length_app|].
  split; [intros c; rewrite list_elem_of_filter; tauto|].
  split; [intros c; rewrite list_elem_of_filter; tauto|].
  split; apply sublist_filter.
Qed.

Lemma map_id_in {A : Type} (f : A -> A) (l : list A) :
  (forall x, x ∈ l -> f x = x) -> map f l = l.
Proof.
  intros Hf. induction l as [|x l IH]; [reflexivity|]. simpl.
  rewrite Hf by left. f_equal. apply IH. intros y Hy. apply Hf. by right.
Qed.

(** X15. Opening a category of the owner in the form and saving it
    unchanged leaves the store as it was; the form is then closed and
    blank.  (Ids are unique and not empty, as primary keys of type
    [uuid] are.) *)
Theorem manager_edit_unchanged (db : Db) (uid : string) (now : Z)
    (uuid : nat -> string) (reply : Response (list Category.t))
    (c : Category.t) (st : CategoryManager.State) :
  NoDup (map Category.id (tbl_categories db)) ->
  c ∈ tbl_categories db -> Category.id c <> "" ->
  let after := CategoryManager.handleSubmit (Some uid) now uuid reply db
                 (CategoryManager.handleEdit c st) in
  fst after = db /\
  CategoryManager.isAdding (snd after) = false /\
  CategoryManager.editingId (snd after) = None /\
  CategoryManager.formData (snd after) = CategoryManager.blank.
Proof.
  intros Hnd Hc Hid after. subst after.
  unfold CategoryManager.handleSubmit, CategoryManager.submitStatement. simpl.
  assert (Ht : truthy (Category.id c) = true).
  { unfold truthy. by destruct (String.eqb_spec (Category.id c) ""). }
  rewrite Ht. simpl. split; [|by destruct reply].
  unfold update_category. destruct db as [cats rows]. simpl in *. f_equal.
  apply map_id_in. intros c' Hc'.
  destruct (decide _) as [[Eid _]|_]; [|reflexivity].
  assert (c' = c) as ->.
  { clear -Hnd Hc Hc' Eid. induction cats as [|x cats IH]; [by apply elem_of_nil in Hc|].
    simpl in Hnd. apply NoDup_cons in Hnd as [Hx Hnd].
    apply elem_of_cons in Hc as [->|Hc]; apply elem_of_cons in Hc' as [->|Hc'].
    - reflexivity.
    - destruct Hx. apply list_elem_of_fmap. exists c'. by split.
    - destruct Hx. apply list_elem_of_fmap. exists c. by split.
    - by apply IH. }
  by destruct c.
Qed.

Lemma manager_edit_unchanged_witness :
  let st := {| CategoryManager.categories := tbl_categories sample_db;
               CategoryManager.isAdding := false;
               CategoryManager.editingId := None;
               CategoryManager.formData := CategoryManager.blank |} in
  let after := CategoryManager.handleSubmit (Some "u") 30 (fun _ => "n") Failed sample_db
                 (CategoryManager.handleEdit sample_salary st) in
  fst after = sample_db /\
  CategoryManager.isAdding (snd after) = false /\
  CategoryManager.editingId (snd after) = None /\
  CategoryManager.formData (snd after) = CategoryManager.blank.
Proof.
  apply (manager_edit_unchanged sample_db "u" 30 (fun _ => "n") Failed sample_salary).
  - apply (bool_decide_unpack _). vm_compute. exact I.
  - apply (bool_decide_unpack _). vm_compute. exact I.
  - discriminate.
Defined.

Lemma find_map_update (p : Category.t -> bool) (f : Category.t -> Category.t)
    (l : list Category.t) :
  (forall c, p (f c) = p c) ->
  List.find p (map f l) = option_map f (List.find p l).
Proof.
  intros Hp. induction l as [|c l IH]; [reflexivity|].
  simpl. rewrite Hp. by destruct (p c).
Qed.

(** X16. Editing a category changes no transaction, so a transaction
    keeps its kind when the kind of its category is changed; in the
    reloaded listing the transactions are the same rows in the same
    order, and exactly those that point at the edited category of the
    owner show its new name and colour. *)
Theorem update_category_listing (db : Db) (uid cid n : string) (k : Kind)
    (col : string) :
  let db' := execute (UpdateCategory uid cid n k col) db in
  tbl_transactions db' = tbl_transactions db /\
  map row (select_transactions db' uid) = map row (select_transactions db uid) /\
  (forall r, embed_category db' uid r =
             match embed_category db uid r with
             | Some shown =>
                 if decide (TxRow.category_id r = Some cid)
                 then Some {| ref_name := n; ref_color := col |}
                 else Some shown
             | None => None
             end).
Proof.
  simpl. split; [reflexivity|]. split.
  - unfold select_transactions. by rewrite !map_map.
  - intros [rid ruid [c|] ramount rtype rdesc rdate rcreated rupdated];
      unfold embed_category; simpl; [|reflexivity].
    rewrite find_map_update.
    2:{ intros x. by destruct (decide _). }
    destruct (List.find _ _) as [found|] eqn:Ef; [|reflexivity]. simpl.
    apply find_some in Ef as [_ Hfound].
    apply bool_decide_eq_true in Hfound as [Hid Hu].
    destruct (decide (Some c = Some cid)) as [[= ->]|Hne].
    + destruct (decide _) as [_|Hn]; [reflexivity|]. by destruct Hn.
    + destruct (decide _) as [[E _]|_]; [|reflexivity]. congruence.
Qed.

(** X17. Adding a category in the manager, with a fresh generated id,
    appends one row owned by the user with the icon ['circle'] and the
    name, kind and colour of the form; the row is then among the
    categories the manager reloads and among the candidates of the
    editor for its kind, and no transaction is changed. *)
Theorem manager_add_category (collate : string -> string -> Z) (db : Db)
    (uid : string) (now : Z) (uuid : nat -> string)
    (reply : Response (list Category.t)) (st : CategoryManager.State) :
  CategoryManager.editingId st = None ->
  NoDup (map Category.id (tbl_categories db)) ->
  uuid 0%nat ∉ map Category.id (tbl_categories db) ->
  let f := CategoryManager.formData st in
  let added := Category.mk (uuid 0%nat) uid (CategoryManager.name f)
                 (CategoryManager.type f) (CategoryManager.color f) "circle" now in
  let db' := fst (CategoryManager.handleSubmit (Some uid) now uuid reply db st) in
  tbl_categories db' = (tbl_categories db ++ [added])%list /\
  tbl_transactions db' = tbl_transactions db /\
  added ∈ select_categories collate db' uid /\
  added ∈ select_categories_of_type collate db' uid (CategoryManager.type f).
Proof.
  intros Hnew Hnd Hfresh f added db'. subst db'.
  unfold CategoryManager.handleSubmit, CategoryManager.submitStatement.
  rewrite Hnew. simpl. unfold insert_categories. simpl.
  destruct (decide _) as [_|Hn].
  - simpl. split; [reflexivity|]. split; [reflexivity|].
    unfold select_categories, select_categories_of_type.
    rewrite !sort_elem_of, !list_elem_of_filter. simpl.
    repeat split; apply elem_of_app; right; left.
  - destruct Hn. split; [by repeat constructor|].
    apply NoDup_app. split; [exact Hnd|]. split.
    + intros x Hx Hx'. apply list_elem_of_singleton in Hx'. by subst.
    + apply NoDup_singleton.
Qed.

Lemma manager_add_category_witness :
  let st := {| CategoryManager.categories := tbl_categories sample_db;
               CategoryManager.isAdding := true;
               CategoryManager.editingId := None;
               CategoryManager.formData :=
                 {| CategoryManager.name := "Rent"; CategoryManager.type := expense;
                    CategoryManager.color := "#f97316" |} |} in
  let f := CategoryManager.formData st in
  let added := Category.mk "c3" "u" (CategoryManager.name f)
                 (CategoryManager.type f) (CategoryManager.color f) "circle" 30 in
  let db' := fst (CategoryManager.handleSubmit (Some "u") 30 (fun _ => "c3") Failed
                    sample_db st) in
  tbl_categories db' = (tbl_categories sample_db ++ [added])%list /\
  tbl_transactions db' = tbl_transactions sample_db /\
  added ∈ select_categories collate_bytes db' "u" /\
  added ∈ select_categories_of_type collate_bytes db' "u" (CategoryManager.type f).
Proof.
  apply (manager_add_category collate_bytes sample_db "u" 30 (fun _ => "c3") Failed).
  - reflexivity.
  - apply (bool_decide_unpack _). vm_compute. exact I.
  - apply (bool_decide_unpack _). vm_compute. exact I.
Defined.

(** ** Seeding, continued *)

Lemma filter_none_in {A : Type} (P : A -> Prop) `{!forall x, Decision (P x)}
    (l : list A) :
  Forall (fun x => ~ P x) l -> filter P l = [].
Proof.
  induction 1 as [|x l Hx Hl IH]; [reflexivity|].
  rewrite filter_cons. by destruct (decide (P x)).
Qed.

Lemma starter_rows_owned (uid : string) (now : Z) (uuid : nat -> string) :
  Forall (fun c => Category.user_id c = uid)
         (zip_with (fun id c => new_category_row id now c)
                   (map uuid (seq 0 (length (starter uid)))) (starter uid)).
Proof. repeat constructor. Qed.

Lemma insert_categories_Some (uid : string) (now : Z) (uuid : nat -> string)
    (rows : list NewCategory) (db db' : Db) :
  insert_categories uid now uuid rows db = Some db' ->
  tbl_categories db'
    = (tbl_categories db ++
       zip_with (fun id c => new_category_row id now c)
                (map uuid (seq 0 (length rows))) rows)%list /\
  tbl_transactions db' = tbl_transactions db.
Proof.
  unfold insert_categories. destruct (decide _); [|discriminate].
  intros [= <-]. by split.
Qed.

(** X18. Seeding settles: for an owner without categories, the load
    issues the insert of the starter set, and once the store has
    accepted it, the next load issues no insert; the editor then offers
    that owner six expense and four income categories. *)
Theorem seeding_settles (collate : string -> string -> Z) (db db' : Db)
    (uid : string) (now : Z) (uuid : nat -> string) :
  Forall (fun c => Category.user_id c <> uid) (tbl_categories db) ->
  insert_categories uid now uuid (starter uid) db = Some db' ->
  initializeDefaultCategories (Some uid) (Data (select_category_ids db uid 1))
    = [starter uid] /\
  initializeDefaultCategories (Some uid) (Data (select_category_ids db' uid 1)) = [] /\
  length (select_categories_of_type collate db' uid expense) = 6%nat /\
  length (select_categories_of_type collate db' uid income) = 4%nat /\
  tbl_transactions db' = tbl_transactions db.
Proof.
  intros Hnone Hins.
  destruct (insert_categories_Some _ _ _ _ _ _ Hins) as [Hcats Hrows].
  pose proof (starter_rows_owned uid now uuid) as Hown.
  assert (Hkinds :
    length (filter (fun c => Category.type c = expense)
              (zip_with (fun id c => new_category_row id now c)
                        (map uuid (seq 0 (length (starter uid)))) (starter uid))) = 6%nat /\
    length (filter (fun c => Category.type c = income)
              (zip_with (fun id c => new_category_row id now c)
                        (map uuid (seq 0 (length (starter uid)))) (starter uid))) = 4%nat /\
    zip_with (fun id c => new_category_row id now c)
             (map uuid (seq 0 (length (starter uid)))) (starter uid) <> [])
    by (by repeat split).
  remember (zip_with (fun id c => new_category_row id now c)
                     (map uuid (seq 0 (length (starter uid)))) (starter uid))
    as new eqn:Enew.
  clear Enew Hins. destruct Hkinds as (He & Hi & Hne).
  assert (Hmine : filter (fun c => Category.user_id c = uid) (tbl_categories db') = new).
  { rewrite Hcats, filter_app, (filter_none_in _ _ Hnone). simpl.
    apply filter_all_true_in. by apply Forall_forall. }
  rewrite !initializeDefaultCategories_starter.
  split; [by rewrite (proj2 (select_category_ids_nil db uid) Hnone)|].
  split.
  { unfold select_category_ids. rewrite Hmine. by destruct new. }
  unfold select_categories_of_type.
  rewrite !(Permutation_length (sort_perm _ _)), Hmine.
  by repeat split.
Qed.

Lemma seeding_settles_witness :
  let uuid := fun n : nat => String (ascii_of_nat (65 + n)) "" in
  exists db',
    insert_categories "u" 1 uuid (starter "u") empty_db = Some db' /\
    initializeDefaultCategories (Some "u") (Data (select_category_ids empty_db "u" 1))
      = [starter "u"] /\
    initializeDefaultCategories (Some "u") (Data (select_category_ids db' "u" 1)) = [] /\
    length (select_categories_of_type collate_bytes db' "u" expense) = 6%nat /\
    length (select_categories_of_type collate_bytes db' "u" income) = 4%nat /\
    tbl_transactions db' = tbl_transactions empty_db.
Proof.
  intros uuid. eexists. split; [vm_compute; reflexivity|].
  apply (seeding_settles collate_bytes empty_db _ "u" 1 uuid).
  - constructor.
  - vm_compute. reflexivity.
Defined.

(** ** The transaction editor, continued *)

Lemma submitted_form_category (c : option string) :
  c <> Some "" -> Editor.submittedCategory (Editor.formCategory c) = c.
Proof.
  intros Hc. unfold Editor.submittedCategory, Editor.formCategory, truthy.
  destruct c as [id|]; [|reflexivity].
  destruct (String.eqb_spec id "") as [->|Hne]; [done|]. simpl.
  by destruct (String.eqb_spec id "").
Qed.

(** X19. The category of the form and the column correspond: what the
    editor submits for the selection it shows for a stored reference is
    that reference (an id is never the empty string), and what it shows
    for a submitted selection is that selection; "no category" is the
    empty selection on one side and [NULL] on the other. *)
Theorem editor_category_roundtrip (c : option string) (s : string) :
  c <> Some "" ->
  Editor.submittedCategory (Editor.formCategory c) = c /\
  Editor.formCategory (Editor.submittedCategory s) = s /\
  Editor.submittedCategory "" = None /\
  Editor.formCategory None = "".
Proof.
  intros Hc. split; [by apply submitted_form_category|].
  unfold Editor.submittedCategory, Editor.formCategory, truthy.
  repeat split.
  destruct (String.eqb_spec s "") as [->|Hne]; [reflexivity|]. simpl.
  by destruct (String.eqb_spec s "").
Qed.

Lemma editor_category_roundtrip_witness :
  Editor.submittedCategory (Editor.formCategory (Some "c1")) = Some "c1" /\
  Editor.formCategory (Editor.submittedCategory "c1") = "c1" /\
  Editor.submittedCategory "" = None /\
  Editor.formCategory None = "".
Proof.
  apply (editor_category_roundtrip (Some "c1") "c1"). discriminate.
Defined.



Lemma sample_db_ok : store_ok sample_db.
Proof.
  unfold store_ok. repeat split.
  - repeat constructor; try (vm_compute; eexists; reflexivity);
      apply (bool_decide_unpack _); vm_compute; exact I.
  - apply (bool_decide_unpack _). vm_compute. exact I.
  - apply (bool_decide_unpack _). vm_compute. exact I.
Qed.


(** ** Grouping and the order of the input *)

Lemma later_date_asym (a b : string) : later_date a b -> later_date b a -> a = b.
Proof.
  unfold later_date. destruct (getTime a), (getTime b); try tauto. lia.
Qed.

Lemma decide_rel_eq_or {A : Type} (x y : A) (l1 l2 : list A) :
  x :: l1 ≡ₚ y :: l2 -> x = y \/ (x ∈ l2 /\ y ∈ l1).
Proof.
  intros Hperm.
  assert (Hx : x ∈ y :: l2) by (rewrite <- Hperm; left).
  assert (Hy : y ∈ x :: l1) by (rewrite Hperm; left).
  apply elem_of_cons in Hx as [->|Hx]; [by left|].
  apply elem_of_cons in Hy as [->|Hy]; [by left|]. by right.
Qed.

Lemma StronglySorted_same {A : Type} (R : relation A) (l1 l2 : list A) :
  (forall x y, R x y -> R y x -> x = y) ->
  StronglySorted R l1 -> StronglySorted R l2 -> l1 ≡ₚ l2 -> l1 = l2.
Proof.
  intros Hasym Hs1. revert l2.
  induction Hs1 as [|x l1 Hs1 IH Hx]; intros l2 Hs2 Hperm.
  - by apply Permutation_nil_l in Hperm.
  - destruct Hs2 as [|y l2 Hs2 Hy].
    + by apply Permutation_nil_r in Hperm.
    + assert (x = y) as <-.
      { destruct (decide_rel_eq_or x y l1 l2 Hperm) as [E|[Hxin Hyin]]; [exact E|].
        rewrite Forall_forall in Hx, Hy. apply Hasym; auto. }
      f_equal. apply IH; [exact Hs2|]. by apply Permutation_cons_inv in Hperm.
Qed.

(** X22. The grouping does not depend on the order of its input: two
    lists of transactions dated by calendar dates that hold the same
    transactions are grouped under the same dates in the same order, and
    the group of each date holds the same transactions. *)
Theorem groupByDate_order_independent (l l' : list Transaction) :
  l ≡ₚ l' ->
  Forall (fun t : Transaction => calendar_date (TxRow.date t)) l ->
  map fst (groupByDate l) = map fst (groupByDate l') /\
  (forall d ts ts', (d, ts) ∈ groupByDate l -> (d, ts') ∈ groupByDate l' -> ts ≡ₚ ts').
Proof.
  intros Hperm Hcal.
  assert (Hcal' : Forall (fun t : Transaction => calendar_date (TxRow.date t)) l').
  { rewrite Forall_forall in *. intros t Ht. apply Hcal. by rewrite Hperm. }
  split.
  - rewrite !groupByDate_dates.
    apply (StronglySorted_same later_date); [exact later_date_asym| | |].
    + by apply sortedDates_sorted.
    + by apply sortedDates_sorted.
    + rewrite !sortedDates_perm. apply NoDup_Permutation.
      * apply groupedTransactions_keys_NoDup.
      * apply groupedTransactions_keys_NoDup.
      * intros d. rewrite !groupedTransactions_keys_elem. unfold dates.
        by rewrite Hperm.
  - intros d ts ts' Hin Hin'.
    destruct (groupByDate_groups l) as (_ & _ & Hg & _).
    destruct (groupByDate_groups l') as (_ & _ & Hg' & _).
    destruct (Hg d ts Hin) as [-> _]. destruct (Hg' d ts' Hin') as [-> _].
    unfold on_date. by rewrite Hperm.
Qed.

Lemma groupByDate_order_independent_witness :
  map fst (groupByDate (select_transactions sample_db "u"))
    = map fst (groupByDate (rev (select_transactions sample_db "u"))) /\
  (forall d ts ts',
     (d, ts) ∈ groupByDate (select_transactions sample_db "u") ->
     (d, ts') ∈ groupByDate (rev (select_transactions sample_db "u")) -> ts ≡ₚ ts').
Proof.
  apply (groupByDate_order_independent (select_transactions sample_db "u")).
  - vm_compute. apply Permutation_rev.
  - repeat constructor; vm_compute; eexists; reflexivity.
Defined.

(** ** The joined category of the listing *)

(** X23. In a store that satisfies the constraints of the schema, a
    listed transaction shows a category exactly when its category
    reference points at a category of the viewer, and then shows the
    name and colour of that category; it shows none when the reference
    is [NULL] or points at a category of another owner. *)
Theorem listing_category (db : Db) (uid : string) (t : Transaction) :
  store_ok db -> t ∈ select_transactions db uid ->
  match category t with
  | Some shown =>
      exists c, c ∈ tbl_categories db /\ TxRow.category_id t = Some (Category.id c) /\
                Category.user_id c = uid /\
                shown = {| ref_name := Category.name c; ref_color := Category.color c |}
  | None =>
      TxRow.category_id t = None \/
      exists c, c ∈ tbl_categories db /\ TxRow.category_id t = Some (Category.id c) /\
                Category.user_id c <> uid
  end.
Proof.
  intros (Hrows & _ & Hcats) Ht. unfold select_transactions in Ht.
  apply list_elem_of_fmap in Ht as (r & -> & Hr). simpl.
  rewrite sort_elem_of, list_elem_of_filter in Hr. destruct Hr as [_ Hr].
  rewrite Forall_forall in Hrows. destruct (Hrows r Hr) as (_ & _ & Hfk).
  unfold embed_category. destruct (TxRow.category_id r) as [cid|]; [|by left].
  simpl in Hfk. apply list_elem_of_fmap in Hfk as (c & -> & Hc).
  destruct (List.find _ _) as [found|] eqn:Ef.
  - apply find_some in Ef as [Hin Hp]. apply list_elem_of_In in Hin.
    apply bool_decide_eq_true in Hp as [Hid Hu].
    exists found. by rewrite Hid.
  - right. exists c. repeat split; [done|]. intros Hu.
    assert (Hin : In c (tbl_categories db)) by (by apply list_elem_of_In).
    pose proof (find_none _ _ Ef c Hin) as Hf. simpl in Hf.
    apply bool_decide_eq_false in Hf. by apply Hf.
Qed.

Lemma listing_category_witness :
  let t := {| row := sample_y;
              category := Some {| ref_name := "Salary"; ref_color := "#22c55e" |} |} in
  match category t with
  | Some shown =>
      exists c, c ∈ tbl_categories sample_db /\
                TxRow.category_id t = Some (Category.id c) /\
                Category.user_id c = "u" /\
                shown = {| ref_name := Category.name c; ref_color := Category.color c |}
  | None =>
      TxRow.category_id t = None \/
      exists c, c ∈ tbl_categories sample_db /\
                TxRow.category_id t = Some (Category.id c) /\
                Category.user_id c <> "u"
  end.
Proof.
  apply (listing_category sample_db "u"
           {| row := sample_y;
              category := Some {| ref_name := "Salary"; ref_color := "#22c55e" |} |}).
  - exact sample_db_ok.
  - apply (bool_decide_unpack _). vm_compute. exact I.
Defined.
